(** * State Toggle: the state-cycling macro action of [src/__init__.py]

    A shallow embedding of the three classes of the plugin,

    - [StateToggle]         the action data and its XML codec,
    - [StateToggleWidget]   the callbacks and the labels of the
                            configuration widget,
    - [StateToggleFunctor]  the runtime engine fed with input events,

    followed by the properties of the specification that concern them.

    Python integers are [Z], Python lists are [list], a raised exception
    is an explicit outcome, and the attributes of [self] mutated by a
    method are the state of a small state-and-exception monad.  A [str] is
    the [string] of its characters, each [ascii] standing for the character
    with that code point: the model covers text whose code points are
    below 256, and what is stated about [int] reading a document is stated
    for ASCII text. *)

From Stdlib Require Import ZArith String Ascii List Lia Bool.
From Stdlib Require Import DecimalString DecimalZ DecimalPos.
From stdpp Require Import base gmap strings list.

Local Open Scope string_scope.
Local Open Scope Z_scope.
Local Open Scope list_scope.

(** ** Exceptions and the state-and-exception monad *)

(** The exceptions the modelled code can raise.  [ProfileError] is what the
    host's boolean parser raises on text it does not understand. *)
Inductive exn : Type :=
| IndexError
| ZeroDivisionError
| TypeError
| ValueError
| ProfileError.

Inductive outcome (A : Type) : Type :=
| Returned (a : A)
| Raised (e : exn).

Arguments Returned {A} a.
Arguments Raised {A} e.

(** A method body: it reads and mutates a state [S] and either returns or
    raises.  The state is kept in both cases: what a Python method has
    mutated before it raises stays mutated. *)
Definition M (S A : Type) : Type := S -> outcome A * S.

Definition ret {S A} (a : A) : M S A := fun s => (Returned a, s).

Definition raise {S A} (e : exn) : M S A := fun s => (Raised e, s).

Definition bind {S A B} (m : M S A) (k : A -> M S B) : M S B :=
  fun s =>
    match m s with
    | (Returned a, s') => k a s'
    | (Raised e, s') => (Raised e, s')
    end.

Notation "x <~ m ;; k" := (bind m (fun x => k))
  (at level 60, m at next level, right associativity).
Notation "m ;;; k" := (bind m (fun _ => k))
  (at level 60, right associativity).

Definition gets {S A} (f : S -> A) : M S A := fun s => (Returned (f s), s).

Definition modify {S} (f : S -> S) : M S unit := fun s => (Returned tt, f s).

Definition lift {S A} (o : outcome A) : M S A := fun s => (o, s).

(** A block working on a local variable of type [L], started at [l0]; the
    value of the variable when the block ends is the result. *)
Definition with_local {S L} (l0 : L) (m : M L unit) : M S L :=
  fun s =>
    match m l0 with
    | (Returned _, l) => (Returned l, s)
    | (Raised e, _) => (Raised e, s)
    end.

(** [for x in xs: body x] *)
Fixpoint for_each {S A} (xs : list A) (body : A -> M S unit) : M S unit :=
  match xs with
  | [] => ret tt
  | x :: xs' => body x ;;; for_each xs' body
  end.

(** ** Python built-ins used by the plugin *)

(** [range(lo, hi)], empty when [hi <= lo]. *)
Definition py_range (lo hi : Z) : list Z :=
  map (fun k => lo + Z.of_nat k) (seq 0 (Z.to_nat (hi - lo))).

(** [l[i]]: a negative index counts from the end, anything outside
    [-len(l) .. len(l) - 1] raises [IndexError]. *)
Definition py_getitem {A} (l : list A) (i : Z) : outcome A :=
  let n := Z.of_nat (length l) in
  let j := if i <? 0 then i + n else i in
  if (0 <=? j) && (j <? n) then
    match l !! Z.to_nat j with
    | Some x => Returned x
    | None => Raised IndexError
    end
  else Raised IndexError.

(** [l.append(x)] *)
Definition py_append {A} (l : list A) (x : A) : list A := l ++ [x].

(** [l.pop()]: removes and returns the last item, [IndexError] on []. *)
Definition py_pop {A} (l : list A) : outcome (A * list A) :=
  match last l with
  | Some x => Returned (x, removelast l)
  | None => Raised IndexError
  end.

(** [l[i] = x]: the item at [i] is replaced, the index read as by [l[i]]. *)
Definition py_setitem {A} (l : list A) (i : Z) (x : A) : outcome (list A) :=
  let n := Z.of_nat (length l) in
  let j := if i <? 0 then i + n else i in
  if (0 <=? j) && (j <? n) then Returned (<[Z.to_nat j := x]> l)
  else Raised IndexError.

(** [a % b]: the sign of the result follows the divisor. *)
Definition py_mod (a b : Z) : outcome Z :=
  if b =? 0 then Raised ZeroDivisionError else Returned (a mod b).

(** [str(z)] for an integer: decimal digits, ["-"] in front when negative. *)
Definition py_str_int (z : Z) : string :=
  NilZero.string_of_int (Z.to_int z).

(** [str(b)] for a boolean. *)
Definition py_str_bool (b : bool) : string :=
  if b then "True" else "False".

(** White space as [int] strips it around a literal: below 127 the
    characters C counts as space (tab to carriage return, and the space),
    above it the ones Unicode counts as white space, which below 256 are
    U+0085 and U+00A0.  The separators U+001C to U+001F are not stripped. *)
Definition is_space (c : ascii) : bool :=
  let n := nat_of_ascii c in
  ((9 <=? n) && (n <=? 13) || (n =? 32) || (n =? 133) || (n =? 160))%nat.

Fixpoint lstrip (s : string) : string :=
  match s with
  | String c r => if is_space c then lstrip r else s
  | EmptyString => EmptyString
  end.

Fixpoint rstrip (s : string) : string :=
  match s with
  | String c r =>
      match rstrip r with
      | EmptyString => if is_space c then EmptyString else String c EmptyString
      | r' => String c r'
      end
  | EmptyString => EmptyString
  end.

Definition digit_of (c : ascii) : option Z :=
  let n := nat_of_ascii c in
  if ((48 <=? n) && (n <=? 57))%nat then Some (Z.of_nat n - 48) else None.

(** The digits of an integer literal: one or more decimal digits, single
    underscores allowed between two digits.  [after_digit] tells whether the
    previous character was a digit, [acc] is the value read so far. *)
Fixpoint digits_value (after_digit : bool) (acc : Z) (s : string) : option Z :=
  match s with
  | EmptyString => if after_digit then Some acc else None
  | String c r =>
      match digit_of c with
      | Some d => digits_value true (10 * acc + d) r
      | None =>
          if Ascii.eqb c "_" && after_digit then digits_value false acc r
          else None
      end
  end.

(** [int(x)] for [x] a string or [None]: [TypeError] on [None], [ValueError]
    on text that is not an integer literal in base ten. *)
Definition py_int (x : option string) : outcome Z :=
  match x with
  | None => Raised TypeError
  | Some s =>
      let t := rstrip (lstrip s) in
      let '(negative, body) :=
        match t with
        | String "-" r => (true, r)
        | String "+" r => (false, r)
        | _ => (false, t)
        end in
      match digits_value false 0 body with
      | Some v => Returned (if negative then - v else v)
      | None => Raised ValueError
      end
  end.

(** Text of ASCII characters only; an absent text has no other character
    either. *)
Fixpoint all_ascii (s : string) : bool :=
  match s with
  | EmptyString => true
  | String c r => (nat_of_ascii c <? 128)%nat && all_ascii r
  end.

Definition ascii_only (x : option string) : bool :=
  match x with
  | None => true
  | Some s => all_ascii s
  end.

(** ** [xml.etree.ElementTree], as far as the codec uses it *)

Module ElementTree.

(** An element: its tag, its attribute dictionary and its children in
    document order. *)
Inductive Element : Type :=
  mkElement (tag : string) (attrib : gmap string string)
            (children : list Element).

Definition tag (e : Element) : string :=
  match e with mkElement t _ _ => t end.

Definition attrib (e : Element) : gmap string string :=
  match e with mkElement _ a _ => a end.

Definition children (e : Element) : list Element :=
  match e with mkElement _ _ c => c end.

(** [ElementTree.Element(tag)] *)
Definition new (t : string) : Element := mkElement t ∅ [].

(** [e.set(key, value)] *)
Definition set (e : Element) (k v : string) : Element :=
  mkElement (tag e) (<[k := v]> (attrib e)) (children e).

(** [e.get(key)], [None] when the attribute is absent. *)
Definition get (e : Element) (k : string) : option string :=
  attrib e !! k.

(** [e.append(child)] *)
Definition append (e child : Element) : Element :=
  mkElement (tag e) (attrib e) (children e ++ [child]).

(** [e.findall(name)] for a plain tag name: the direct children with
    that tag, in document order. *)
Definition findall (e : Element) (name : string) : list Element :=
  List.filter (fun c => String.eqb (tag c) name) (children e).

End ElementTree.

(** ** [StateToggle]: the action data *)

(** One key of a combination: [(scan_code, is_extended)]. *)
Definition KeyIdentifier : Type := Z * bool.

Module StateToggle.

(** The attributes of an action instance that the plugin itself manages. *)
Record t : Type := mk {
  chain_states : list (list KeyIdentifier);
  num_states : Z
}.

Definition tag : string := "StateToggle".
Definition subtag : string := "state".

(** [self.MAX_STATES = 10], assigned once in [__init__]. *)
Definition MAX_STATES : Z := 10.

(** [__init__]: no state, count zero. *)
Definition init : t := {| chain_states := []; num_states := 0 |}.

Definition set_chain_states (f : list (list KeyIdentifier) ->
                                 list (list KeyIdentifier)) (a : t) : t :=
  {| chain_states := f (chain_states a); num_states := num_states a |}.

Definition set_num_states (n : Z) (a : t) : t :=
  {| chain_states := chain_states a; num_states := n |}.

(** [_is_valid] *)
Definition is_valid (self : t) : bool :=
  0 <? Z.of_nat (length (chain_states self)).

Section Codec.

(** [gremlin.profile.parse_bool], the host's boolean parser, applied to
    the result of [child.get] (a string, or [None] for a missing
    attribute). *)
Variable parse_bool : option string -> outcome bool.

(** The body of [for child in state.findall("key")], on the local
    list [keys]. *)
Definition parse_key (child : ElementTree.Element)
  : M (list KeyIdentifier) unit :=
  scan_code <~ lift (py_int (ElementTree.get child "scan-code")) ;;
  extended <~ lift (parse_bool (ElementTree.get child "extended")) ;;
  modify (fun keys => py_append keys (scan_code, extended)).

(** The body of [for state in node.findall(self.subtag)]. *)
Definition parse_state (state : ElementTree.Element) : M t unit :=
  keys <~ with_local [] (for_each (ElementTree.findall state "key")
                                  parse_key) ;;
  modify (set_chain_states (fun cs => py_append cs keys)) ;;;
  n <~ gets num_states ;;
  modify (set_num_states (n + 1)).

(** [_parse_xml] *)
Definition parse_xml (node : ElementTree.Element) : M t unit :=
  for_each (ElementTree.findall node subtag) parse_state.

End Codec.

(** The body of [for key in eachkey] of [_generate_xml]. *)
Definition generate_key (state_node : ElementTree.Element)
           (key : KeyIdentifier) : ElementTree.Element :=
  let key_node := ElementTree.new "key" in
  let key_node := ElementTree.set key_node "scan-code"
                                  (py_str_int (fst key)) in
  let key_node := ElementTree.set key_node "extended"
                                  (py_str_bool (snd key)) in
  ElementTree.append state_node key_node.

(** The body of [for eachkey in self.chain_states]. *)
Definition generate_state (node : ElementTree.Element)
           (eachkey : list KeyIdentifier) : ElementTree.Element :=
  let state_node := fold_left generate_key eachkey
                              (ElementTree.new subtag) in
  ElementTree.append node state_node.

(** [_generate_xml] *)
Definition generate_xml (self : t) : ElementTree.Element :=
  fold_left generate_state (chain_states self) (ElementTree.new tag).

(** *** Notions used to state the properties *)

(** [num_states] counts the combinations of [chain_states]. *)
Definition consistent (self : t) : Prop :=
  num_states self = Z.of_nat (length (chain_states self)).

(** The [key] element written for one key, and the [state] element
    written for one combination. *)
Definition key_element (key : KeyIdentifier) : ElementTree.Element :=
  ElementTree.set
    (ElementTree.set (ElementTree.new "key") "scan-code"
                     (py_str_int (fst key)))
    "extended" (py_str_bool (snd key)).

Definition state_element (keys : list KeyIdentifier) : ElementTree.Element :=
  ElementTree.mkElement subtag ∅ (map key_element keys).

Section Decoding.

Variable parse_bool : option string -> outcome bool.

(** The two attributes of [child] read as the key [key]: the [scan-code]
    is ASCII text that [int] reads as the scan code, the [extended] is
    read by the host's parser as the flag. *)
Definition key_decodes (child : ElementTree.Element) (key : KeyIdentifier)
  : Prop :=
  ascii_only (ElementTree.get child "scan-code") = true /\
  py_int (ElementTree.get child "scan-code") = Returned (fst key) /\
  parse_bool (ElementTree.get child "extended") = Returned (snd key).

(** The [key] children of [state] read, in document order, as [keys]. *)
Definition state_decodes (state : ElementTree.Element)
           (keys : list KeyIdentifier) : Prop :=
  Forall2 key_decodes (ElementTree.findall state "key") keys.

(** The [state] children of [node] read, in document order, as [combos]. *)
Definition document_decodes (node : ElementTree.Element)
           (combos : list (list KeyIdentifier)) : Prop :=
  Forall2 state_decodes (ElementTree.findall node subtag) combos.

End Decoding.

End StateToggle.

(** ** [StateToggleWidget]: the callback of the state-count spin box *)

Module StateToggleWidget.

Import StateToggle.

(** [_states_changed_cb], on the action data of the widget.  [value] is
    [int(value)], the integer the spin box's number is converted to at
    each use; the signal emitted at the end has no effect on the data. *)
Definition states_changed_cb (value : Z) : M StateToggle.t unit :=
  n <~ gets num_states ;;
  (if n <? value then
     for_each (py_range 0 (value - n)) (fun _ =>
       let key := [] in
       modify (set_chain_states (fun cs => py_append cs key)))
   else
     for_each (py_range 0 (n - value)) (fun _ =>
       cs <~ gets chain_states ;;
       popped <~ lift (py_pop cs) ;;
       modify (set_chain_states (fun _ => snd popped)))) ;;;
  modify (set_num_states value).

(** A key as the input listener hands it to [_update_keys]; the two
    attributes are the ones the method reads. *)
Record RecordedKey : Type := mkRecordedKey {
  scan_code : Z;
  is_extended : bool
}.

(** [_update_keys], on the action data of the widget.  [id] is [self.id],
    the index [_record_keys_cb] has stored; the signal emitted at the end
    has no effect on the data. *)
Definition update_keys (id : Z) (keys : list RecordedKey)
  : M StateToggle.t unit :=
  let recorded := map (fun key => (scan_code key, is_extended key)) keys in
  cs <~ gets chain_states ;;
  cs' <~ lift (py_setitem cs id recorded) ;;
  modify (set_chain_states (fun _ => cs')).

Section Labels.

(** The [name] of the key [gremlin.macro.key_from_code] finds for a scan
    code and an extended flag: its display name. *)
Variable key_name : Z -> bool -> string.

(** The loop of [_create_ui], on [self.list_key_combination]: the list
    of the labels, each label being the text it shows.  A new [QLabel]
    shows no text. *)
Definition create_ui (action_data : StateToggle.t) : M (list string) unit :=
  for_each (py_range 0 (num_states action_data)) (fun _ =>
    let key_combination := "" in
    modify (fun labels => py_append labels key_combination)).

(** The text [_populate_ui] computes for one combination. *)
Definition label_text (eachkey : list KeyIdentifier) : string :=
  let text := "<b>Current keys combination:</b> " in
  let names := fold_left (fun names key =>
                            py_append names (key_name (fst key) (snd key)))
                         eachkey [] in
  (text ++ String.concat " + " names)%string.

(** [_populate_ui], on [self.list_key_combination]; the local index [i]
    runs beside the labels. *)
Definition populate_ui (action_data : StateToggle.t)
  : M (list string) unit :=
  fun labels =>
    let body (eachkey : list KeyIdentifier) : M (Z * list string) unit :=
      st <~ gets (fun st => st) ;;
      labels' <~ lift (py_setitem (snd st) (fst st) (label_text eachkey)) ;;
      modify (fun _ => (fst st + 1, labels')) in
    match for_each (chain_states action_data) body (0, labels) with
    | (o, (_, labels')) => (o, labels')
    end.

End Labels.

End StateToggleWidget.

(** ** [StateToggleFunctor]: the runtime engine *)

Module StateToggleFunctor.

Section Engine.

(** [Key] is the key object of [gremlin.macro], [key_from_code] its
    lookup by scan code and extended flag, [Event] the input event the
    host passes to [process_event]. *)
Context {Key Event : Type}.
Variable key_from_code : Z -> bool -> Key.

(** A [gremlin.macro.Macro]: the key actions recorded so far, each a key
    and whether it is pressed ([true]) or released ([false]). *)
Definition Macro : Type := list (Key * bool).

(** [gremlin.macro.Macro()] *)
Definition Macro_new : Macro := [].

(** [macro.press(key)] *)
Definition Macro_press (m : Macro) (key : Key) : Macro :=
  py_append m (key, true).

(** [macro.release(key)] *)
Definition Macro_release (m : Macro) (key : Key) : Macro :=
  py_append m (key, false).

(** The attributes of the functor. *)
Record t : Type := mk {
  press : list Macro;
  needs_auto_release : list bool;
  release : list Macro;
  num_states : Z;
  current_toggle : Z
}.

Definition set_current_toggle (c : Z) (self : t) : t :=
  {| press := press self;
     needs_auto_release := needs_auto_release self;
     release := release self;
     num_states := num_states self;
     current_toggle := c |}.

(** The body of [for i in range(0, action.num_states)] of [__init__]. *)
Definition init_state (action : StateToggle.t) (i : Z) : M t unit :=
  let press_m := Macro_new in
  let needs := true in
  keys <~ lift (py_getitem (StateToggle.chain_states action) i) ;;
  let press_m :=
    fold_left (fun m key => Macro_press m (key_from_code (fst key)
                                                         (snd key)))
              keys press_m in
  let release_m := Macro_new in
  keys' <~ lift (py_getitem (StateToggle.chain_states action) i) ;;
  let release_m :=
    fold_left (fun m key => Macro_release m (key_from_code (fst key)
                                                           (snd key)))
              keys' release_m in
  modify (fun self =>
    {| press := py_append (press self) press_m;
       needs_auto_release := py_append (needs_auto_release self) needs;
       release := py_append (release self) release_m;
       num_states := num_states self;
       current_toggle := current_toggle self |}).

(** [__init__]: the functor built from an action, or the exception that
    escapes the constructor. *)
Definition init (action : StateToggle.t) : outcome t :=
  let self := {| press := []; needs_auto_release := []; release := [];
                 num_states := StateToggle.num_states action;
                 current_toggle := 0 |} in
  match for_each (py_range 0 (StateToggle.num_states action))
                 (init_state action) self with
  | (Returned _, self') => Returned self'
  | (Raised e, _) => Raised e
  end.

(** The callback handed to [ButtonReleaseActions]: a closure over
    [self], which reads [self.current_toggle] when it is called. *)
Inductive Callback : Type :=
| QueueCurrentRelease.

(** What [process_event] acts on: the functor itself, the queue of
    [MacroManager] and the callbacks registered with
    [ButtonReleaseActions], both in order of arrival. *)
Record World : Type := mkWorld {
  self_ : t;
  macro_queue : list Macro;
  release_callbacks : list (Callback * Event)
}.

(** [gremlin.macro.MacroManager().queue_macro(m)] *)
Definition queue_macro (m : Macro) : M World unit :=
  modify (fun w => {| self_ := self_ w;
                      macro_queue := py_append (macro_queue w) m;
                      release_callbacks := release_callbacks w |}).

(** [ButtonReleaseActions().register_callback(cb, event)] *)
Definition register_callback (cb : Callback) (event : Event)
  : M World unit :=
  modify (fun w => {| self_ := self_ w;
                      macro_queue := macro_queue w;
                      release_callbacks :=
                        py_append (release_callbacks w) (cb, event) |}).

(** The object handed over as [value]; only [value.current] is read. *)
Record Value : Type := mkValue { current : bool }.

(** [process_event] *)
Definition process_event (event : Event) (value : Value) : M World bool :=
  (if current value then
     self <~ gets self_ ;;
     m <~ lift (py_getitem (press self) (current_toggle self)) ;;
     queue_macro m ;;;
     needs <~ lift (py_getitem (needs_auto_release self)
                               (current_toggle self)) ;;
     if (needs : bool) then register_callback QueueCurrentRelease event
     else ret tt
   else
     self <~ gets self_ ;;
     m <~ lift (py_getitem (release self) (current_toggle self)) ;;
     queue_macro m ;;;
     next <~ lift (py_mod (current_toggle self + 1) (num_states self)) ;;
     modify (fun w => {| self_ := set_current_toggle next (self_ w);
                         macro_queue := macro_queue w;
                         release_callbacks := release_callbacks w |})) ;;;
  ret true.

(** Calling a registered callback. *)
Definition run_callback (cb : Callback) : M World unit :=
  match cb with
  | QueueCurrentRelease =>
      self <~ gets self_ ;;
      m <~ lift (py_getitem (release self) (current_toggle self)) ;;
      queue_macro m
  end.

(** A run of [process_event] calls, stopping at the first exception. *)
Fixpoint process_events (evs : list (Event * Value)) : M World unit :=
  match evs with
  | [] => ret tt
  | (event, value) :: evs' =>
      process_event event value ;;; process_events evs'
  end.

(** The world around a functor that has not been used yet. *)
Definition fresh_world (self : t) : World :=
  {| self_ := self; macro_queue := []; release_callbacks := [] |}.

(** *** Notions used to state the properties *)

(** The press and the release macro of one key combination: one action
    per key, in the order of the combination. *)
Definition press_macro (keys : list KeyIdentifier) : Macro :=
  map (fun key => (key_from_code (fst key) (snd key), true)) keys.

Definition release_macro (keys : list KeyIdentifier) : Macro :=
  map (fun key => (key_from_code (fst key) (snd key), false)) keys.

(** The three lists hold one entry per state and the cursor is an index
    into them. *)
Definition well_formed (self : t) : Prop :=
  Z.of_nat (length (press self)) = num_states self /\
  Z.of_nat (length (needs_auto_release self)) = num_states self /\
  Z.of_nat (length (release self)) = num_states self /\
  0 <= current_toggle self < num_states self.

(** Events whose [value.current] alternates, the first one being [b]. *)
Fixpoint alternating (b : bool) (evs : list (Event * Value)) : Prop :=
  match evs with
  | [] => True
  | ev :: evs' => current (snd ev) = b /\ alternating (negb b) evs'
  end.

(** The number of deactivations in a run of events. *)
Definition deactivations (evs : list (Event * Value)) : nat :=
  length (List.filter (fun ev => negb (current (snd ev))) evs).

(** Every state of the functor asks for the automatic release. *)
Definition always_auto_release (self : t) : Prop :=
  forall (i : nat) (b : bool), needs_auto_release self !! i = Some b ->
                               b = true.

End Engine.

Arguments t : clear implicits.
Arguments Macro : clear implicits.
Arguments World : clear implicits.
Arguments Value : clear implicits.

End StateToggleFunctor.

(** ** Concrete instances

    Keys identified with their scan code and extended flag, events with
    no content, and the two-state action of the specification's scenario. *)

Definition example_key_from_code (scan_code : Z) (is_extended : bool)
  : KeyIdentifier := (scan_code, is_extended).

Definition no_states : StateToggle.t := StateToggle.init.

Definition one_state : StateToggle.t :=
  {| StateToggle.chain_states := [[(30, false)]];
     StateToggle.num_states := 1 |}.

Definition two_states : StateToggle.t :=
  {| StateToggle.chain_states := [[(30, false)]; [(42, false); (44, false)]];
     StateToggle.num_states := 2 |}.

Definition two_states_functor : StateToggleFunctor.t KeyIdentifier :=
  {| StateToggleFunctor.press :=
       [[((30, false), true)]; [((42, false), true); ((44, false), true)]];
     StateToggleFunctor.needs_auto_release := [true; true];
     StateToggleFunctor.release :=
       [[((30, false), false)]; [((42, false), false); ((44, false), false)]];
     StateToggleFunctor.num_states := 2;
     StateToggleFunctor.current_toggle := 0 |}.

(** A list of [MAX_STATES] states, each with an empty combination. *)
Definition ten_states : StateToggle.t :=
  {| StateToggle.chain_states := replicate 10 [];
     StateToggle.num_states := 10 |}.

(** A boolean parser that reads the two texts [str] writes for a boolean
    and refuses everything else; it stands for the host's parser where a
    concrete one is needed. *)
Definition example_parse_bool (value : option string) : outcome bool :=
  match value with
  | Some "True" => Returned true
  | Some "False" => Returned false
  | _ => Raised ProfileError
  end.

(** A document with eleven [state] elements, the fourth holding the same
    key twice, the others empty. *)
Definition eleven_states_document : ElementTree.Element :=
  ElementTree.mkElement "StateToggle" ∅
    (replicate 3 (ElementTree.mkElement "state" ∅ []) ++
     [ElementTree.mkElement "state" ∅
        [ElementTree.mkElement "key"
           (<["scan-code" := "30"]> (<["extended" := "True"]> ∅)) [];
         ElementTree.mkElement "key"
           (<["scan-code" := "30"]> (<["extended" := "True"]> ∅)) []]] ++
     replicate 7 (ElementTree.mkElement "state" ∅ [])).

(** Display names for the examples: a key is shown as its scan code. *)
Definition example_key_name (scan_code : Z) (is_extended : bool) : string :=
  py_str_int scan_code.

(** A document with three [state] elements; the second key of the second
    one has no [scan-code] attribute. *)
Definition broken_document : ElementTree.Element :=
  ElementTree.mkElement "StateToggle" ∅
    [ElementTree.mkElement "state" ∅
       [ElementTree.mkElement "key"
          (<["scan-code" := "30"]> (<["extended" := "True"]> ∅)) []];
     ElementTree.mkElement "state" ∅
       [ElementTree.mkElement "key"
          (<["scan-code" := "42"]> (<["extended" := "False"]> ∅)) [];
        ElementTree.mkElement "key" (<["extended" := "False"]> ∅) []];
     ElementTree.mkElement "state" ∅ []].

Definition activate : StateToggleFunctor.Value :=
  StateToggleFunctor.mkValue true.

Definition deactivate : StateToggleFunctor.Value :=
  StateToggleFunctor.mkValue false.

(** * Properties *)

(** ** Facts about the monad and the built-ins *)

Example py_int_42 : py_int (Some " -4_2 ") = Returned (-42).
Proof. reflexivity. Qed.
Example py_int_bad : py_int (Some "4__2") = Raised ValueError.
Proof. reflexivity. Qed.
Example py_str_m7 : py_str_int (-70) = "-70".
Proof. reflexivity. Qed.

Lemma py_getitem_lookup {A} (l : list A) (i : Z) (x : A) :
  0 <= i -> l !! Z.to_nat i = Some x -> py_getitem l i = Returned x.
Proof.
  intros Hi Hx. unfold py_getitem.
  pose proof (lookup_lt_Some _ _ _ Hx) as Hlt.
  destruct (i <? 0) eqn:Hneg; [lia|].
  destruct (0 <=? i) eqn:H0; [|lia].
  destruct (i <? Z.of_nat (length l)) eqn:Hn; [|lia].
  simpl. now rewrite Hx.
Qed.

Lemma py_getitem_in_range {A} (l : list A) (i : Z) :
  0 <= i < Z.of_nat (length l) ->
  exists x, l !! Z.to_nat i = Some x /\ py_getitem l i = Returned x.
Proof.
  intros Hi.
  destruct (lookup_lt_is_Some_2 l (Z.to_nat i)) as [x Hx]; [lia|].
  exists x. split; [exact Hx|]. apply py_getitem_lookup; [lia|exact Hx].
Qed.

Lemma py_getitem_nil {A} (i : Z) : py_getitem (@nil A) i = Raised IndexError.
Proof.
  unfold py_getitem. cbn [length].
  destruct (i <? 0); destruct (_ && _); reflexivity.
Qed.

Lemma py_getitem_out_of_range {A} (l : list A) (i : Z) :
  Z.of_nat (length l) <= i -> py_getitem l i = Raised IndexError.
Proof.
  intros Hi. unfold py_getitem.
  destruct (i <? 0) eqn:Hneg; [lia|].
  destruct (i <? Z.of_nat (length l)) eqn:Hn; [lia|].
  now rewrite andb_false_r.
Qed.

Lemma py_range_nonpos (lo hi : Z) : hi <= lo -> py_range lo hi = [].
Proof.
  intros H. unfold py_range.
  replace (Z.to_nat (hi - lo)) with 0%nat by lia. reflexivity.
Qed.

Lemma py_range_length (lo hi : Z) :
  length (py_range lo hi) = Z.to_nat (hi - lo).
Proof. unfold py_range. now rewrite length_map, length_seq. Qed.

Lemma for_each_app {S A} (xs ys : list A) (body : A -> M S unit) (s : S) :
  for_each (xs ++ ys) body s =
  match for_each xs body s with
  | (Returned _, s') => for_each ys body s'
  | (Raised e, s') => (Raised e, s')
  end.
Proof.
  revert s. induction xs as [|x xs IH]; intros s; simpl.
  - reflexivity.
  - unfold bind. destruct (body x s) as [[[]|e] s']; [apply IH|reflexivity].
Qed.

(** ** The runtime engine *)

Section EngineFacts.

Import StateToggleFunctor.

Context {Key Event : Type}.
Variable key_from_code : Z -> bool -> Key.

Lemma fold_press (keys : list KeyIdentifier) (m : Macro Key) :
  fold_left (fun m key => Macro_press m (key_from_code (fst key) (snd key)))
            keys m = m ++ press_macro key_from_code keys.
Proof.
  revert m. induction keys as [|k keys IH]; intros m; simpl.
  - now rewrite app_nil_r.
  - rewrite IH. unfold Macro_press, py_append.
    now rewrite <- app_assoc.
Qed.

Lemma fold_release (keys : list KeyIdentifier) (m : Macro Key) :
  fold_left (fun m key => Macro_release m (key_from_code (fst key)
                                                         (snd key)))
            keys m = m ++ release_macro key_from_code keys.
Proof.
  revert m. induction keys as [|k keys IH]; intros m; simpl.
  - now rewrite app_nil_r.
  - rewrite IH. unfold Macro_release, py_append.
    now rewrite <- app_assoc.
Qed.

(** One round of the constructor's loop, at an index inside the list. *)
Lemma init_state_in_range (action : StateToggle.t) (i : nat)
      (keys : list KeyIdentifier) (self : t Key) :
  StateToggle.chain_states action !! i = Some keys ->
  init_state key_from_code action (Z.of_nat i) self =
  (Returned tt,
   {| press := press self ++ [press_macro key_from_code keys];
      needs_auto_release := needs_auto_release self ++ [true];
      release := release self ++ [release_macro key_from_code keys];
      num_states := num_states self;
      current_toggle := current_toggle self |}).
Proof.
  intros Hk. unfold init_state, bind, lift, modify.
  rewrite (py_getitem_lookup _ _ keys); [|lia|now rewrite Nat2Z.id].
  rewrite fold_press, fold_release. reflexivity.
Qed.

(** The constructor's loop over [len] indices from [s] on. *)
Lemma init_loop (action : StateToggle.t) (len s : nat) (self : t Key) :
  (s + len <= length (StateToggle.chain_states action))%nat ->
  for_each (map (fun k => 0 + Z.of_nat k) (seq s len))
           (init_state key_from_code action) self =
  (Returned tt,
   let done := take len (drop s (StateToggle.chain_states action)) in
   {| press := press self ++ map (press_macro key_from_code) done;
      needs_auto_release :=
        needs_auto_release self ++ map (fun _ => true) done;
      release := release self ++ map (release_macro key_from_code) done;
      num_states := num_states self;
      current_toggle := current_toggle self |}).
Proof.
  revert s self. induction len as [|len IH]; intros s self Hlen.
  - simpl. rewrite !app_nil_r. now destruct self.
  - destruct (lookup_lt_is_Some_2 (StateToggle.chain_states action) s)
      as [keys Hk]; [lia|].
    cbn [seq map for_each]. unfold bind at 1. rewrite Z.add_0_l.
    rewrite (init_state_in_range _ _ keys) by exact Hk.
    rewrite IH by lia. cbn zeta. cbn [press needs_auto_release release
                                      num_states current_toggle].
    rewrite (drop_S _ keys s Hk). cbn [take map].
    rewrite <- !app_assoc. reflexivity.
Qed.

(** What the constructor returns when the action holds at least
    [num_states] combinations. *)
Lemma init_returns (action : StateToggle.t) :
  StateToggle.num_states action
    <= Z.of_nat (length (StateToggle.chain_states action)) ->
  init key_from_code action =
  Returned
    (let done := take (Z.to_nat (StateToggle.num_states action))
                      (StateToggle.chain_states action) in
     {| press := map (press_macro key_from_code) done;
        needs_auto_release := map (fun _ => true) done;
        release := map (release_macro key_from_code) done;
        num_states := StateToggle.num_states action;
        current_toggle := 0 |}).
Proof.
  intros Hn. unfold init, py_range. rewrite Z.sub_0_r.
  rewrite init_loop by (simpl; lia). reflexivity.
Qed.

(** With fewer combinations than [num_states] the constructor stops at
    the first missing one. *)
Lemma init_raises (action : StateToggle.t) :
  Z.of_nat (length (StateToggle.chain_states action))
    < StateToggle.num_states action ->
  init key_from_code action = Raised IndexError.
Proof.
  intros Hn. unfold init, py_range. rewrite Z.sub_0_r.
  set (len := length (StateToggle.chain_states action)) in *.
  replace (Z.to_nat (StateToggle.num_states action))
    with (len + S (Z.to_nat (StateToggle.num_states action) - S len))%nat
    by lia.
  rewrite seq_app, map_app, for_each_app.
  rewrite init_loop by (fold len; lia).
  cbn [seq map for_each]. unfold bind, init_state at 1, bind, lift.
  rewrite py_getitem_out_of_range by (fold len; lia). reflexivity.
Qed.

(** A functor the constructor returns, for an action with at least one
    state, is well formed and has its cursor at 0. *)
Lemma init_well_formed (action : StateToggle.t) (self : t Key) :
  init key_from_code action = Returned self ->
  1 <= num_states self ->
  well_formed self /\ current_toggle self = 0 /\
  num_states self = StateToggle.num_states action /\
  release self =
    map (release_macro key_from_code)
        (take (Z.to_nat (num_states self))
              (StateToggle.chain_states action)).
Proof.
  intros Hinit Hn.
  destruct (Z_lt_le_dec
              (Z.of_nat (length (StateToggle.chain_states action)))
              (StateToggle.num_states action)) as [Hlt|Hle].
  - rewrite init_raises in Hinit by exact Hlt. discriminate.
  - rewrite init_returns in Hinit by exact Hle.
    injection Hinit as <-. cbn zeta in *.
    cbn [press needs_auto_release release num_states current_toggle] in *.
    unfold well_formed.
    cbn [press needs_auto_release release num_states current_toggle].
    rewrite !length_map, length_take.
    repeat split; try reflexivity; lia.
Qed.

End EngineFacts.

Section EngineSteps.

Import StateToggleFunctor.

Context {Key Event : Type}.

Implicit Types (self : t Key) (event : Event) (value : Value)
         (q : list (Macro Key)) (cbs : list (Callback * Event)).

Lemma set_current_toggle_same self :
  set_current_toggle (current_toggle self) self = self.
Proof. now destruct self. Qed.

Lemma set_current_toggle_twice (c c' : Z) self :
  set_current_toggle c' (set_current_toggle c self) =
  set_current_toggle c' self.
Proof. reflexivity. Qed.

Lemma well_formed_set_current_toggle (c : Z) self :
  well_formed self -> 0 <= c < num_states self ->
  well_formed (set_current_toggle c self).
Proof.
  intros (Hp & Hn & Hr & _) Hc. unfold well_formed. cbn. auto.
Qed.

(** A deactivation on a well-formed functor: the release macro under the
    cursor joins the queue, the cursor moves on by one modulo
    [num_states], nothing else changes. *)
Lemma process_event_deactivate self event value q cbs :
  well_formed self -> current value = false ->
  exists m,
    release self !! Z.to_nat (current_toggle self) = Some m /\
    process_event event value
      {| self_ := self; macro_queue := q; release_callbacks := cbs |} =
    (Returned true,
     {| self_ := set_current_toggle
                   ((current_toggle self + 1) mod num_states self) self;
        macro_queue := q ++ [m];
        release_callbacks := cbs |}).
Proof.
  intros (Hp & Hn & Hr & Hc) Hv.
  destruct (py_getitem_in_range (release self) (current_toggle self))
    as (m & Hm & Hget); [lia|].
  exists m. split; [exact Hm|].
  unfold process_event. rewrite Hv.
  unfold bind, gets, lift, queue_macro, modify, ret, py_mod. cbn.
  rewrite Hget. cbn.
  destruct (num_states self =? 0) eqn:Hz; [lia|]. reflexivity.
Qed.

(** An activation on a well-formed functor: the press macro under the
    cursor joins the queue, the auto-release callback is registered when
    the state's flag is set, and the functor itself is untouched. *)
Lemma process_event_activate self event value q cbs :
  well_formed self -> current value = true ->
  exists (m : Macro Key) (needs : bool),
    press self !! Z.to_nat (current_toggle self) = Some m /\
    needs_auto_release self !! Z.to_nat (current_toggle self)
      = Some needs /\
    process_event event value
      {| self_ := self; macro_queue := q; release_callbacks := cbs |} =
    (Returned true,
     {| self_ := self;
        macro_queue := q ++ [m];
        release_callbacks :=
          if needs then cbs ++ [(QueueCurrentRelease, event)] else cbs |}).
Proof.
  intros (Hp & Hn & Hr & Hc) Hv.
  destruct (py_getitem_in_range (press self) (current_toggle self))
    as (m & Hm & Hget); [lia|].
  destruct (py_getitem_in_range (needs_auto_release self)
                                (current_toggle self))
    as (needs & Hneeds & Hgetn); [lia|].
  exists m, needs. split; [exact Hm|]. split; [exact Hneeds|].
  unfold process_event. rewrite Hv.
  unfold bind, gets, lift, queue_macro, register_callback, modify, ret.
  cbn. rewrite Hget. cbn. rewrite Hgetn. cbn.
  now destruct needs.
Qed.

(** Any run of events on a well-formed functor goes through without an
    exception; it leaves the lists alone and moves the cursor by the
    number of deactivations, modulo [num_states]. *)
Lemma process_events_cursor (evs : list (Event * Value)) self q cbs :
  well_formed self ->
  exists q' cbs',
    process_events evs
      {| self_ := self; macro_queue := q; release_callbacks := cbs |} =
    (Returned tt,
     {| self_ := set_current_toggle
                   ((current_toggle self + Z.of_nat (deactivations evs))
                      mod num_states self) self;
        macro_queue := q';
        release_callbacks := cbs' |}).
Proof.
  revert self q cbs.
  induction evs as [|[event value] evs IH]; intros self q cbs Hwf.
  - exists q, cbs. cbn. unfold ret.
    destruct Hwf as (_ & _ & _ & Hc).
    rewrite Z.add_0_r, Z.mod_small by lia.
    now rewrite set_current_toggle_same.
  - cbn [process_events]. unfold bind at 1.
    destruct (current value) eqn:Hv.
    + destruct (process_event_activate self event value q cbs Hwf Hv)
        as (m & needs & _ & _ & ->).
      destruct (IH self (q ++ [m])
                   (if needs then cbs ++ [(QueueCurrentRelease, event)]
                    else cbs) Hwf) as (q' & cbs' & ->).
      exists q', cbs'. unfold deactivations. cbn. rewrite Hv. reflexivity.
    + destruct (process_event_deactivate self event value q cbs Hwf Hv)
        as (m & _ & ->).
      assert (Hc : 0 <= (current_toggle self + 1) mod num_states self
                   < num_states self).
      { destruct Hwf as (_ & _ & _ & Hc). apply Z.mod_pos_bound. lia. }
      destruct (IH _ (q ++ [m]) cbs
                   (well_formed_set_current_toggle _ _ Hwf Hc))
        as (q' & cbs' & ->).
      exists q', cbs'. unfold deactivations. cbn. rewrite Hv. cbn.
      rewrite set_current_toggle_twice, Zplus_mod_idemp_l.
      do 3 f_equal. f_equal. lia.
Qed.

(** Alternating events come in pairs, one deactivation in each. *)
Lemma alternating_deactivations (n : nat) (evs : list (Event * Value)) :
  alternating true evs -> length evs = (2 * n)%nat ->
  deactivations evs = n.
Proof.
  revert evs. induction n as [|n IH]; intros evs Halt Hlen.
  - now destruct evs.
  - destruct evs as [|a [|d evs]]; try (cbn in Hlen; lia).
    destruct Halt as (Ha & Hd & Halt). cbn in Hd.
    unfold deactivations in *. cbn. rewrite Ha, Hd. cbn.
    f_equal. apply IH; [exact Halt|]. cbn in Hlen. lia.
Qed.

End EngineSteps.

(** ** Claims about the runtime engine *)

Section EngineClaims.

Import StateToggleFunctor.

Context {Key Event : Type}.
Variable key_from_code : Z -> bool -> Key.

Implicit Types (self : t Key) (event : Event) (value : Value)
         (q : list (Macro Key)) (cbs : list (Callback * Event)).

(** C1, as amended: constructing the functor from an action whose
    [num_states] is 0 does not fail.  The loop over [range(0, 0)] has no
    round, and the constructor returns a zero-length engine: the three
    lists empty, [num_states] 0, the cursor 0.  No check of the count
    stands in [__init__]. *)
Theorem init_zero_states (action : StateToggle.t) :
  StateToggle.num_states action = 0 ->
  init key_from_code action =
  Returned {| press := []; needs_auto_release := []; release := [];
              num_states := 0; current_toggle := 0 |}.
Proof.
  intros Hn. unfold init. rewrite Hn. reflexivity.
Qed.

(** X6: on the zero-length engine, the one the constructor returns for
    an action with no state, every event raises [IndexError] at the first
    list access and changes nothing; the modulo by zero is never
    reached. *)
Lemma zero_length_engine_raises event value q cbs :
  let w := {| self_ := {| press := []; needs_auto_release := [];
                          release := []; num_states := 0;
                          current_toggle := 0 |};
              macro_queue := q; release_callbacks := cbs |} in
  process_event event value w = (Raised IndexError, w).
Proof.
  unfold process_event. destruct (current value); reflexivity.
Qed.

(** C3: on an engine whose lists have [num_states] entries and whose
    cursor is in range (so [num_states >= 1]), [process_event] with
    [value.current] false puts exactly [release[current_toggle]] at the
    end of the queue and sets the cursor to
    [(current_toggle + 1) mod num_states]; with [value.current] true it
    queues [press[current_toggle]], registers the auto-release callback
    when the flag of the state is set, and leaves the functor, cursor
    included, as it was.  Both return [True]. *)
Theorem process_event_spec self event value q cbs :
  well_formed self ->
  exists (p r : Macro Key) (needs : bool),
    press self !! Z.to_nat (current_toggle self) = Some p /\
    release self !! Z.to_nat (current_toggle self) = Some r /\
    needs_auto_release self !! Z.to_nat (current_toggle self)
      = Some needs /\
    process_event event value
      {| self_ := self; macro_queue := q; release_callbacks := cbs |} =
    (Returned true,
     if current value then
       {| self_ := self;
          macro_queue := q ++ [p];
          release_callbacks :=
            if needs then cbs ++ [(QueueCurrentRelease, event)]
            else cbs |}
     else
       {| self_ := set_current_toggle
                     ((current_toggle self + 1) mod num_states self) self;
          macro_queue := q ++ [r];
          release_callbacks := cbs |}).
Proof.
  intros Hwf.
  destruct (process_event_activate self event activate q cbs Hwf eq_refl)
    as (p & needs & Hp & Hneeds & _).
  destruct (process_event_deactivate self event deactivate q cbs Hwf
                                     eq_refl) as (r & Hr & _).
  exists p, r, needs. repeat (split; [assumption|]).
  destruct (current value) eqn:Hv.
  - destruct (process_event_activate self event value q cbs Hwf Hv)
      as (p' & needs' & Hp' & Hneeds' & Heq).
    rewrite Hp in Hp'. injection Hp' as <-.
    rewrite Hneeds in Hneeds'. injection Hneeds' as <-.
    exact Heq.
  - destruct (process_event_deactivate self event value q cbs Hwf Hv)
      as (r' & Hr' & Heq).
    rewrite Hr in Hr'. injection Hr' as <-.
    exact Heq.
Qed.

(** C8: a functor constructed with [num_states >= 1] has its cursor at 0,
    and whatever events follow, none of the [process_event] calls raises
    and the cursor ends in [0, num_states); [num_states] itself never
    changes. *)
Theorem cursor_stays_in_range (action : StateToggle.t) self :
  init key_from_code action = Returned self ->
  1 <= num_states self ->
  current_toggle self = 0 /\
  forall (evs : list (Event * Value)) q cbs,
  exists w',
    process_events evs
      {| self_ := self; macro_queue := q; release_callbacks := cbs |} =
    (Returned tt, w') /\
    0 <= current_toggle (self_ w') < num_states self /\
    num_states (self_ w') = num_states self.
Proof.
  intros Hinit Hn.
  destruct (init_well_formed key_from_code action self Hinit Hn)
    as (Hwf & Hc & _).
  split; [exact Hc|]. intros evs q cbs.
  destruct (process_events_cursor evs self q cbs Hwf) as (q' & cbs' & ->).
  eexists. split; [reflexivity|]. cbn. split; [|reflexivity].
  apply Z.mod_pos_bound. lia.
Qed.

(** C2: take a functor constructed from an action with
    [num_states = N >= 1] and put its cursor at any index [c] of the
    state list.  After [2 * N] events that alternate activation and
    deactivation, an activation first, no call has raised and the cursor
    is [c] again. *)
Theorem alternating_run_restores_cursor
        (action : StateToggle.t) self (N : nat) (c : Z)
        (evs : list (Event * Value)) q cbs :
  init key_from_code action = Returned self ->
  num_states self = Z.of_nat N -> (1 <= N)%nat ->
  0 <= c < Z.of_nat N ->
  length evs = (2 * N)%nat -> alternating true evs ->
  exists w',
    process_events evs
      {| self_ := set_current_toggle c self;
         macro_queue := q; release_callbacks := cbs |} =
    (Returned tt, w') /\
    current_toggle (self_ w') = c.
Proof.
  intros Hinit HN Hpos Hc Hlen Halt.
  destruct (init_well_formed key_from_code action self Hinit ltac:(lia))
    as (Hwf & _).
  assert (Hwf' : well_formed (set_current_toggle c self))
    by (apply well_formed_set_current_toggle; [exact Hwf|lia]).
  destruct (process_events_cursor evs _ q cbs Hwf') as (q' & cbs' & ->).
  eexists. split; [reflexivity|]. cbn.
  rewrite (alternating_deactivations N evs Halt Hlen), HN.
  rewrite <- (Z.mul_1_l (Z.of_nat N)) at 1.
  rewrite Z.mod_add by lia. apply Z.mod_small. lia.
Qed.

(** C4, as amended: when the first event after construction is a
    deactivation, no activation before it, the call queues [release[0]],
    the release macro of the first combination, and moves the cursor to
    [1 mod num_states]: to 1 when there are two states or more, back to 0
    when there is only one. *)
Theorem first_deactivation (action : StateToggle.t) self event value q cbs :
  init key_from_code action = Returned self ->
  1 <= num_states self ->
  current value = false ->
  exists keys,
    StateToggle.chain_states action !! 0%nat = Some keys /\
    release self !! 0%nat = Some (release_macro key_from_code keys) /\
    process_event event value
      {| self_ := self; macro_queue := q; release_callbacks := cbs |} =
    (Returned true,
     {| self_ := set_current_toggle
                   (if num_states self =? 1 then 0 else 1) self;
        macro_queue := q ++ [release_macro key_from_code keys];
        release_callbacks := cbs |}).
Proof.
  intros Hinit Hn Hv.
  destruct (init_well_formed key_from_code action self Hinit Hn)
    as (Hwf & Hc & Hnum & Hrel).
  destruct (process_event_deactivate self event value q cbs Hwf Hv)
    as (m & Hm & ->).
  rewrite Hc in *. change (Z.to_nat 0) with 0%nat in Hm.
  rewrite Hrel in Hm. rewrite list_lookup_fmap in Hm.
  destruct (take (Z.to_nat (num_states self))
                 (StateToggle.chain_states action) !! 0%nat)
    as [keys|] eqn:Hk; cbn in Hm; [|discriminate].
  injection Hm as <-.
  exists keys. split.
  { apply lookup_take_Some in Hk. tauto. }
  split.
  { rewrite Hrel, list_lookup_fmap, Hk. reflexivity. }
  do 3 f_equal. cbn.
  destruct (num_states self =? 1) eqn:H1.
  - apply Z.eqb_eq in H1. rewrite H1. reflexivity.
  - apply Z.eqb_neq in H1. apply Z.mod_small. lia.
Qed.

End EngineClaims.

(** ** The engine claims on concrete actions

    Keys are their identifiers, events carry nothing ([unit]). *)

(** C1: the action with no state, as [StateToggle.__init__] leaves it, gives
    the zero-length engine. *)
Lemma init_zero_states_witness :
  StateToggle.num_states no_states = 0 /\
  StateToggleFunctor.init example_key_from_code no_states =
  Returned (StateToggleFunctor.mk [] [] [] 0 0).
Proof.
  split; [reflexivity|].
  apply (init_zero_states example_key_from_code no_states). reflexivity.
Defined.

(** C1, the claim as stated fails: from the action with [num_states = 0]
    the constructor returns a functor, it raises nothing; the functor has
    no state, and the first event it is given raises [IndexError] at the
    list access (the modulo by zero is not reached). *)
Lemma zero_length_engine_is_built :
  exists self : StateToggleFunctor.t KeyIdentifier,
    StateToggleFunctor.init example_key_from_code no_states = Returned self /\
    StateToggleFunctor.num_states self = 0 /\
    StateToggleFunctor.process_event tt deactivate
      (StateToggleFunctor.fresh_world self) =
    (Raised IndexError, StateToggleFunctor.fresh_world self).
Proof.
  eexists. split; [reflexivity|]. split; reflexivity.
Qed.

(** C3 on the two-state engine, cursor at 0, a deactivation. *)
Lemma process_event_spec_witness :
  StateToggleFunctor.well_formed two_states_functor /\
  StateToggleFunctor.process_event tt deactivate
    (StateToggleFunctor.fresh_world two_states_functor) =
  (Returned true,
   StateToggleFunctor.mkWorld
     (StateToggleFunctor.set_current_toggle 1 two_states_functor)
     [[((30, false), false)]] []).
Proof.
  assert (Hwf : StateToggleFunctor.well_formed two_states_functor).
  { unfold StateToggleFunctor.well_formed. cbn. lia. }
  split; [exact Hwf|].
  destruct (process_event_spec two_states_functor tt deactivate [] [] Hwf)
    as (p & r & needs & Hp & Hr & Hneeds & Heq).
  cbn in Hr. injection Hr as <-. exact Heq.
Defined.

(** C8 on the two-state engine and three events. *)
Lemma cursor_stays_in_range_witness :
  StateToggleFunctor.init example_key_from_code two_states =
    Returned two_states_functor /\
  StateToggleFunctor.current_toggle two_states_functor = 0 /\
  exists w',
    StateToggleFunctor.process_events
      [(tt, deactivate); (tt, activate); (tt, deactivate)]
      (StateToggleFunctor.fresh_world two_states_functor) =
    (Returned tt, w') /\
    0 <= StateToggleFunctor.current_toggle (StateToggleFunctor.self_ w') < 2 /\
    StateToggleFunctor.num_states (StateToggleFunctor.self_ w') = 2.
Proof.
  split; [reflexivity|].
  destruct (cursor_stays_in_range (Event := unit) example_key_from_code
              two_states two_states_functor eq_refl ltac:(cbn; lia))
    as [H0 H].
  split; [exact H0|].
  exact (H [(tt, deactivate); (tt, activate); (tt, deactivate)] [] []).
Defined.

(** C2 on the two-state engine, started at cursor 1: four alternating
    events bring the cursor back to 1. *)
Lemma alternating_run_restores_cursor_witness :
  exists w',
    StateToggleFunctor.process_events
      [(tt, activate); (tt, deactivate); (tt, activate); (tt, deactivate)]
      (StateToggleFunctor.mkWorld
         (StateToggleFunctor.set_current_toggle 1 two_states_functor) [] []) =
    (Returned tt, w') /\
    StateToggleFunctor.current_toggle (StateToggleFunctor.self_ w') = 1.
Proof.
  apply (alternating_run_restores_cursor example_key_from_code
           two_states two_states_functor 2 1).
  - reflexivity.
  - reflexivity.
  - lia.
  - lia.
  - reflexivity.
  - cbn. tauto.
Defined.

(** C4 on the two-state engine: the first deactivation queues the release
    of scan code 30 and the cursor is 1. *)
Lemma first_deactivation_witness :
  exists keys,
    StateToggle.chain_states two_states !! 0%nat = Some keys /\
    StateToggleFunctor.release two_states_functor !! 0%nat =
      Some (StateToggleFunctor.release_macro example_key_from_code keys) /\
    StateToggleFunctor.process_event tt deactivate
      (StateToggleFunctor.fresh_world two_states_functor) =
    (Returned true,
     StateToggleFunctor.mkWorld
       (StateToggleFunctor.set_current_toggle 1 two_states_functor)
       ([] ++ [StateToggleFunctor.release_macro example_key_from_code keys])
       []).
Proof.
  apply (first_deactivation example_key_from_code two_states
           two_states_functor tt deactivate [] []).
  - reflexivity.
  - cbn. lia.
  - reflexivity.
Defined.

(** C4, the claim as stated fails for a single state: the first
    deactivation queues [release[0]] and the cursor, advanced modulo 1, is
    0 again, not 1. *)
Lemma first_deactivation_single_state :
  exists (self : StateToggleFunctor.t KeyIdentifier) w',
    StateToggleFunctor.init example_key_from_code one_state = Returned self /\
    StateToggleFunctor.num_states self = 1 /\
    StateToggleFunctor.process_event tt deactivate
      (StateToggleFunctor.fresh_world self) = (Returned true, w') /\
    StateToggleFunctor.macro_queue w' = [[((30, false), false)]] /\
    StateToggleFunctor.current_toggle (StateToggleFunctor.self_ w') = 0.
Proof.
  do 2 eexists. split; [reflexivity|]. split; [reflexivity|].
  split; [reflexivity|]. split; reflexivity.
Qed.

(** ** The resize callback *)

Lemma py_pop_nonempty {A} (l : list A) :
  l <> [] -> exists x, py_pop l = Returned (x, take (length l - 1) l).
Proof.
  intros Hl. unfold py_pop. destruct (last l) as [x|] eqn:Hlast.
  - exists x. rewrite removelast_firstn_len.
    now replace (Nat.pred (length l)) with (length l - 1)%nat by lia.
  - apply last_None in Hlast. contradiction.
Qed.

Section WidgetFacts.

Import StateToggle StateToggleWidget.

(** The growing loop: one empty combination per round. *)
Lemma grow_loop (xs : list Z) (a : StateToggle.t) :
  for_each xs (fun _ =>
    let key := [] in
    modify (set_chain_states (fun cs => py_append cs key))) a =
  (Returned tt,
   set_chain_states (fun cs => cs ++ replicate (length xs) []) a).
Proof.
  revert a. induction xs as [|x xs IH]; intros a.
  - cbn. unfold ret, set_chain_states. rewrite app_nil_r. now destruct a.
  - cbn [for_each]. unfold bind at 1, modify at 1. rewrite IH.
    unfold set_chain_states, py_append. cbn.
    now rewrite <- app_assoc.
Qed.

(** The shrinking loop: one [pop] per round; it raises when the list runs
    out, having emptied it. *)
Lemma shrink_loop (xs : list Z) (a : StateToggle.t) :
  for_each xs (fun _ =>
    cs <~ gets chain_states ;;
    popped <~ lift (py_pop cs) ;;
    modify (set_chain_states (fun _ => snd popped))) a =
  if (length xs <=? length (chain_states a))%nat then
    (Returned tt,
     set_chain_states (take (length (chain_states a) - length xs)) a)
  else
    (Raised IndexError, set_chain_states (fun _ => []) a).
Proof.
  revert a. induction xs as [|x xs IH]; intros a.
  - cbn. unfold ret, set_chain_states. rewrite Nat.sub_0_r, take_ge by lia.
    now destruct a.
  - cbn [for_each]. unfold bind at 1, bind at 1, gets at 1.
    destruct (chain_states a) as [|c cs] eqn:Hcs.
    + unfold bind, lift. cbn. unfold set_chain_states.
      destruct a; cbn in *. now subst.
    + destruct (py_pop_nonempty (c :: cs)) as [y Hy]; [discriminate|].
      unfold lift at 1, bind at 1. rewrite Hy. unfold modify at 1.
      rewrite IH. cbn [snd set_chain_states chain_states num_states length].
      rewrite length_take. cbn [length].
      replace (S (length cs) - 1)%nat with (length cs) by lia.
      rewrite Nat.min_l by lia.
      destruct (length xs <=? length cs)%nat eqn:Hle.
      * apply Nat.leb_le in Hle.
        replace (S (length xs) <=? S (length cs))%nat with true
          by (symmetry; apply Nat.leb_le; lia).
        unfold set_chain_states. cbn [chain_states num_states].
        rewrite Hcs, take_take. do 3 f_equal. lia.
      * apply Nat.leb_gt in Hle.
        replace (S (length xs) <=? S (length cs))%nat with false
          by (symmetry; apply Nat.leb_gt; lia).
        reflexivity.
Qed.

(** The callback for a target that is not negative, on an action whose
    count is the length of its list. *)
Lemma states_changed_cb_nonneg (a : StateToggle.t) (value : Z) :
  num_states a = Z.of_nat (length (chain_states a)) ->
  0 <= value ->
  states_changed_cb value a =
  (Returned tt,
   {| chain_states :=
        if num_states a <? value then
          chain_states a ++ replicate (Z.to_nat (value - num_states a)) []
        else take (Z.to_nat value) (chain_states a);
      num_states := value |}).
Proof.
  intros Hn Hv. unfold states_changed_cb, bind at 1, gets at 1.
  destruct (num_states a <? value) eqn:Hlt.
  - unfold bind. rewrite grow_loop, py_range_length, Z.sub_0_r. reflexivity.
  - apply Z.ltb_ge in Hlt. unfold bind at 1.
    rewrite shrink_loop, py_range_length, Z.sub_0_r.
    replace (Z.to_nat (num_states a - value) <=? length (chain_states a))%nat
      with true by (symmetry; apply Nat.leb_le; lia).
    unfold modify, set_num_states, set_chain_states. cbn.
    do 3 f_equal. lia.
Qed.

(** The callback for a negative target: every state is popped, the next
    [pop] raises, and the count is not assigned. *)
Lemma states_changed_cb_negative (a : StateToggle.t) (value : Z) :
  num_states a = Z.of_nat (length (chain_states a)) ->
  value < 0 ->
  states_changed_cb value a =
  (Raised IndexError, {| chain_states := []; num_states := num_states a |}).
Proof.
  intros Hn Hv. unfold states_changed_cb, bind at 1, gets at 1.
  destruct (num_states a <? value) eqn:Hlt; [apply Z.ltb_lt in Hlt; lia|].
  unfold bind at 1.
  rewrite shrink_loop, py_range_length, Z.sub_0_r.
  replace (Z.to_nat (num_states a - value) <=? length (chain_states a))%nat
    with false by (symmetry; apply Nat.leb_gt; lia).
  reflexivity.
Qed.

(** C7: for a target in [0, MAX_STATES], on an action whose count is the
    length of its list, the callback returns normally.  When the target
    is above the count [k], the new list is the old one followed by
    [target - k] empty combinations, so the entries below [k] are as they
    were; otherwise the new list is the first [target] entries of the old
    one, the last [k - target] being removed.  In both cases [num_states]
    is the target. *)
Theorem states_changed_cb_in_range (a : StateToggle.t) (value : Z) :
  num_states a = Z.of_nat (length (chain_states a)) ->
  0 <= value <= MAX_STATES ->
  states_changed_cb value a =
  (Returned tt,
   {| chain_states :=
        if num_states a <? value then
          chain_states a ++ replicate (Z.to_nat (value - num_states a)) []
        else take (Z.to_nat value) (chain_states a);
      num_states := value |}).
Proof.
  intros Hn [Hv _]. now apply states_changed_cb_nonneg.
Qed.

(** C6, as amended: the callback checks no range.  A target above
    [MAX_STATES] is carried out like any other: the list grows to the
    target (or is cut to it) and [num_states] becomes the target.  A
    target below 0 pops every state and then raises [IndexError] from
    [pop] on the empty list: [chain_states] is left empty and [num_states]
    keeps its old value.  Only the range of the spin box keeps such
    targets away. *)
Theorem states_changed_cb_out_of_range (a : StateToggle.t) (value : Z) :
  num_states a = Z.of_nat (length (chain_states a)) ->
  (MAX_STATES < value ->
   states_changed_cb value a =
   (Returned tt,
    {| chain_states :=
         if num_states a <? value then
           chain_states a ++ replicate (Z.to_nat (value - num_states a)) []
         else take (Z.to_nat value) (chain_states a);
       num_states := value |})) /\
  (value < 0 ->
   states_changed_cb value a =
   (Raised IndexError,
    {| chain_states := []; num_states := num_states a |})).
Proof.
  intros Hn. split; intros Hv.
  - apply states_changed_cb_nonneg; [exact Hn|]. unfold MAX_STATES in Hv. lia.
  - now apply states_changed_cb_negative.
Qed.

End WidgetFacts.

(** C7 on the two-state action: growing to 4 and shrinking to 1. *)
Lemma states_changed_cb_in_range_witness :
  StateToggleWidget.states_changed_cb 4 two_states =
  (Returned tt,
   StateToggle.mk [[(30, false)]; [(42, false); (44, false)]; []; []] 4) /\
  StateToggleWidget.states_changed_cb 1 two_states =
  (Returned tt, StateToggle.mk [[(30, false)]] 1).
Proof.
  split.
  - apply (states_changed_cb_in_range two_states 4);
      [reflexivity | unfold StateToggle.MAX_STATES; lia].
  - apply (states_changed_cb_in_range two_states 1);
      [reflexivity | unfold StateToggle.MAX_STATES; lia].
Defined.

(** C6 on the ten-state action, target 11, and on the two-state action,
    target -1. *)
Lemma states_changed_cb_out_of_range_witness :
  StateToggleWidget.states_changed_cb 11 ten_states =
  (Returned tt, StateToggle.mk (replicate 11 []) 11) /\
  StateToggleWidget.states_changed_cb (-1) two_states =
  (Raised IndexError, StateToggle.mk [] 2).
Proof.
  split.
  - apply (proj1 (states_changed_cb_out_of_range ten_states 11 eq_refl)).
    unfold StateToggle.MAX_STATES. lia.
  - apply (proj2 (states_changed_cb_out_of_range two_states (-1) eq_refl)).
    lia.
Defined.

(** C6, the claim as stated fails: asked for [MAX_STATES + 1] states on a
    list of [MAX_STATES], the callback returns normally and the list has
    eleven states, [num_states] 11; nothing is rejected and the list is
    not what it was. *)
Lemma resize_above_max_is_carried_out :
  StateToggle.num_states ten_states = StateToggle.MAX_STATES /\
  exists a',
    StateToggleWidget.states_changed_cb (StateToggle.MAX_STATES + 1)
                                        ten_states = (Returned tt, a') /\
    length (StateToggle.chain_states a') = 11%nat /\
    StateToggle.num_states a' = 11 /\
    a' <> ten_states.
Proof.
  split; [reflexivity|]. eexists. split; [reflexivity|].
  split; [reflexivity|]. split; [reflexivity|]. discriminate.
Qed.

(** ** [str] and [int] on integers *)

Local Ltac eval_digit :=
  match goal with
  | |- context [digit_of ?c] =>
      let v := eval vm_compute in (digit_of c) in
      change (digit_of c) with v
  end.

(** Reading the digits of a decimal number, the value read so far being
    positive. *)
Lemma digits_value_uint_acc (d : Decimal.uint) (p : positive) :
  digits_value true (Z.pos p) (NilEmpty.string_of_uint d) =
  Some (Z.pos (Pos.of_uint_acc d p)).
Proof.
  revert p.
  induction d; intros p;
    cbn [NilEmpty.string_of_uint digits_value Pos.of_uint_acc];
    [reflexivity | ..];
    eval_digit; cbv iota beta;
    (etransitivity; [|apply IHd]); f_equal; lia.
Qed.

(** Reading the digits of a decimal number from the start; leading zeros
    count for nothing. *)
Lemma digits_value_uint (d : Decimal.uint) (after_digit : bool) :
  after_digit = true \/ d <> Decimal.Nil ->
  digits_value after_digit 0 (NilEmpty.string_of_uint d) =
  Some (Z.of_N (Pos.of_uint d)).
Proof.
  revert after_digit.
  induction d; intros after_digit Hd;
    cbn [NilEmpty.string_of_uint digits_value Pos.of_uint].
  - destruct Hd as [-> | Hd]; [reflexivity | contradiction].
  - eval_digit. cbv iota beta. apply (IHd true). now left.
  - eval_digit. cbv iota beta. apply (digits_value_uint_acc d 1).
  - eval_digit. cbv iota beta. apply (digits_value_uint_acc d 2).
  - eval_digit. cbv iota beta. apply (digits_value_uint_acc d 3).
  - eval_digit. cbv iota beta. apply (digits_value_uint_acc d 4).
  - eval_digit. cbv iota beta. apply (digits_value_uint_acc d 5).
  - eval_digit. cbv iota beta. apply (digits_value_uint_acc d 6).
  - eval_digit. cbv iota beta. apply (digits_value_uint_acc d 7).
  - eval_digit. cbv iota beta. apply (digits_value_uint_acc d 8).
  - eval_digit. cbv iota beta. apply (digits_value_uint_acc d 9).
Qed.

(** A string of digits has no white space to strip at its end. *)
Lemma rstrip_uint (d : Decimal.uint) :
  rstrip (NilEmpty.string_of_uint d) = NilEmpty.string_of_uint d.
Proof.
  induction d; cbn [NilEmpty.string_of_uint rstrip]; [reflexivity | ..];
    rewrite IHd; now destruct (NilEmpty.string_of_uint d).
Qed.

(** The digits [str] writes for a positive number. *)
Lemma string_of_pos_digits (p : positive) :
  exists (c : ascii) (r : string),
    NilZero.string_of_uint (Pos.to_uint p) = String c r /\
    NilEmpty.string_of_uint (Pos.to_uint p) = String c r /\
    is_space c = false /\ c <> "-"%char /\ c <> "+"%char.
Proof.
  pose proof (DecimalPos.Unsigned.to_uint_nonnil p) as Hnil.
  destruct (Pos.to_uint p); [contradiction | ..];
    cbn [NilZero.string_of_uint NilEmpty.string_of_uint];
    do 2 eexists; (split; [reflexivity|]); (split; [reflexivity|]);
    (split; [reflexivity|]); split; discriminate.
Qed.

(** [str] of an integer writes ASCII characters only. *)
Lemma all_ascii_uint (d : Decimal.uint) :
  all_ascii (NilEmpty.string_of_uint d) = true.
Proof.
  induction d; cbn [NilEmpty.string_of_uint all_ascii];
    [reflexivity | ..]; now rewrite IHd.
Qed.

Lemma all_ascii_str_int (z : Z) : all_ascii (py_str_int z) = true.
Proof.
  unfold py_str_int. destruct z as [|p|p]; [reflexivity | |];
    cbn [Z.to_int NilZero.string_of_int];
    destruct (string_of_pos_digits p) as (c & r & -> & He & _);
    pose proof (all_ascii_uint (Pos.to_uint p)) as Ha; rewrite He in Ha.
  - exact Ha.
  - cbn [all_ascii] in Ha |- *. now rewrite Ha.
Qed.

(** [int(str(z)) == z] for every integer. *)
Lemma py_int_str_int (z : Z) : py_int (Some (py_str_int z)) = Returned z.
Proof.
  unfold py_str_int. destruct z as [|p|p]; [reflexivity | |];
    cbn [Z.to_int NilZero.string_of_int];
    destruct (string_of_pos_digits p) as (c & r & Hz & He & Hsp & Hm & Hp);
    pose proof (rstrip_uint (Pos.to_uint p)) as Hr;
    pose proof (digits_value_uint (Pos.to_uint p) false
                  (or_intror (DecimalPos.Unsigned.to_uint_nonnil p))) as Hd;
    rewrite DecimalPos.Unsigned.of_to in Hd; rewrite He in Hr, Hd;
    rewrite Hz; unfold py_int.
  - cbn [lstrip]. rewrite Hsp, Hr.
    destruct c as [[] [] [] [] [] [] [] []]; try congruence;
      try (rewrite Hd; reflexivity).
  - change (lstrip (String "-" (String c r))) with (String "-" (String c r)).
    replace (rstrip (String "-" (String c r))) with (String "-" (String c r)).
    + rewrite Hd. reflexivity.
    + cbn [rstrip] in *. rewrite Hr. reflexivity.
Qed.

(** ** The XML codec *)

Section CodecFacts.

Import StateToggle.

Variable parse_bool : option string -> outcome bool.

(** The loop over the [key] children of one state. *)
Lemma parse_keys_loop (children : list ElementTree.Element)
      (keys l : list KeyIdentifier) :
  Forall2 (key_decodes parse_bool) children keys ->
  for_each children (parse_key parse_bool) l = (Returned tt, l ++ keys).
Proof.
  intros H. revert l.
  induction H as [|child key children keys (_ & Hsc & Hex) _ IH]; intros l.
  - cbn. unfold ret. now rewrite app_nil_r.
  - cbn [for_each]. unfold bind at 1, parse_key at 1.
    rewrite Hsc, Hex. unfold bind, lift, modify, py_append.
    rewrite IH, <- app_assoc. now destruct key.
Qed.

(** One round of the loop over the [state] children. *)
Lemma parse_state_decodes (state : ElementTree.Element)
      (keys : list KeyIdentifier) (a : t) :
  state_decodes parse_bool state keys ->
  parse_state parse_bool state a =
  (Returned tt,
   {| chain_states := chain_states a ++ [keys];
      num_states := num_states a + 1 |}).
Proof.
  intros H. unfold parse_state, bind, with_local.
  rewrite (parse_keys_loop _ keys []) by exact H.
  reflexivity.
Qed.

Lemma parse_states_loop (states : list ElementTree.Element)
      (combos : list (list KeyIdentifier)) (a : t) :
  Forall2 (state_decodes parse_bool) states combos ->
  for_each states (parse_state parse_bool) a =
  (Returned tt,
   {| chain_states := chain_states a ++ combos;
      num_states := num_states a + Z.of_nat (length combos) |}).
Proof.
  intros H. revert a.
  induction H as [|state keys states combos Hs _ IH]; intros a.
  - cbn. unfold ret. rewrite app_nil_r, Z.add_0_r. now destruct a.
  - cbn [for_each]. unfold bind at 1.
    rewrite (parse_state_decodes _ keys) by exact Hs.
    rewrite IH. cbn [chain_states num_states length].
    rewrite <- app_assoc. do 2 f_equal. lia.
Qed.

(** A document whose states read as [combos] is parsed without an
    exception, and [combos] are appended. *)
Lemma parse_xml_decodes (node : ElementTree.Element)
      (combos : list (list KeyIdentifier)) (a : t) :
  document_decodes parse_bool node combos ->
  parse_xml parse_bool node a =
  (Returned tt,
   {| chain_states := chain_states a ++ combos;
      num_states := num_states a + Z.of_nat (length combos) |}).
Proof. apply parse_states_loop. Qed.

(** One round of the loop over the [state] children either raises and
    leaves the action as it was, or appends one combination. *)
Lemma parse_state_cases (state : ElementTree.Element) (a : t) :
  (exists e, parse_state parse_bool state a = (Raised e, a)) \/
  (exists keys,
     parse_state parse_bool state a =
     (Returned tt,
      {| chain_states := chain_states a ++ [keys];
         num_states := num_states a + 1 |})).
Proof.
  unfold parse_state, bind, with_local.
  destruct (for_each (ElementTree.findall state "key")
                     (parse_key parse_bool) []) as [[[]|e] keys].
  - right. exists keys. reflexivity.
  - left. exists e. reflexivity.
Qed.

Lemma parse_states_accumulate (states : list ElementTree.Element) (a : t) :
  exists new,
    snd (for_each states (parse_state parse_bool) a) =
      {| chain_states := chain_states a ++ new;
         num_states := num_states a + Z.of_nat (length new) |} /\
    (length new <= length states)%nat /\
    (fst (for_each states (parse_state parse_bool) a) = Returned tt ->
     length new = length states).
Proof.
  revert a. induction states as [|state states IH]; intros a.
  - exists []. cbn. rewrite app_nil_r, Z.add_0_r. now destruct a.
  - cbn [for_each]. unfold bind at 1 2.
    destruct (parse_state_cases state a) as [[e ->] | [keys ->]].
    + exists []. cbn. rewrite app_nil_r, Z.add_0_r.
      split; [now destruct a|]. split; [lia | discriminate].
    + destruct (IH {| chain_states := chain_states a ++ [keys];
                      num_states := num_states a + 1 |})
        as (new & Hsnd & Hle & Hfst).
      exists (keys :: new). cbn [chain_states num_states] in Hsnd.
      split; [|split].
      * rewrite Hsnd, <- app_assoc. cbn [length app]. f_equal. lia.
      * cbn [length]. lia.
      * intros Hret. cbn [length]. f_equal. apply Hfst, Hret.
Qed.

(** *** What [_generate_xml] builds *)

Lemma generate_keys_loop (keys : list KeyIdentifier)
      (state_node : ElementTree.Element) :
  fold_left generate_key keys state_node =
  ElementTree.mkElement (ElementTree.tag state_node)
    (ElementTree.attrib state_node)
    (ElementTree.children state_node ++ map key_element keys).
Proof.
  revert state_node. induction keys as [|key keys IH]; intros state_node.
  - cbn. rewrite app_nil_r. now destruct state_node.
  - cbn [fold_left map]. rewrite IH. unfold generate_key, ElementTree.append.
    cbn [ElementTree.tag ElementTree.attrib ElementTree.children].
    now rewrite <- app_assoc.
Qed.

Lemma generate_states_loop (combos : list (list KeyIdentifier))
      (node : ElementTree.Element) :
  fold_left generate_state combos node =
  ElementTree.mkElement (ElementTree.tag node) (ElementTree.attrib node)
    (ElementTree.children node ++ map state_element combos).
Proof.
  revert node. induction combos as [|keys combos IH]; intros node.
  - cbn. rewrite app_nil_r. now destruct node.
  - cbn [fold_left map]. rewrite IH. unfold generate_state.
    rewrite generate_keys_loop. unfold ElementTree.append.
    cbn [ElementTree.tag ElementTree.attrib ElementTree.children app].
    now rewrite <- app_assoc.
Qed.

(** The node written for an action: tag [StateToggle], no attribute, one
    [state] child per combination, each with one [key] child per key. *)
Lemma generate_xml_elements (self : t) :
  generate_xml self =
  ElementTree.mkElement tag ∅ (map state_element (chain_states self)).
Proof. unfold generate_xml. now rewrite generate_states_loop. Qed.

Lemma findall_same_tag (name : string) (attrib : gmap string string)
      (children : list ElementTree.Element) (t : string) :
  Forall (fun c => ElementTree.tag c = name) children ->
  ElementTree.findall (ElementTree.mkElement t attrib children) name =
  children.
Proof.
  intros H. unfold ElementTree.findall. cbn [ElementTree.children].
  induction H as [|c cs Hc _ IH]; [reflexivity|].
  cbn [List.filter]. rewrite Hc, String.eqb_refl. now f_equal.
Qed.

Lemma findall_key_elements (keys : list KeyIdentifier) :
  ElementTree.findall (state_element keys) "key" = map key_element keys.
Proof.
  apply findall_same_tag.
  induction keys as [|key keys IH]; now constructor.
Qed.

Lemma findall_state_elements (combos : list (list KeyIdentifier))
      (t : string) (attrib : gmap string string) :
  ElementTree.findall
    (ElementTree.mkElement t attrib (map state_element combos)) subtag =
  map state_element combos.
Proof.
  apply findall_same_tag.
  induction combos as [|keys combos IH]; now constructor.
Qed.

Section RoundTrip.

(** The host's parser reads back what [str] writes for a boolean. *)
Hypothesis parse_bool_True : parse_bool (Some "True") = Returned true.
Hypothesis parse_bool_False : parse_bool (Some "False") = Returned false.

Lemma key_element_decodes (key : KeyIdentifier) :
  key_decodes parse_bool (key_element key) key.
Proof.
  unfold key_decodes, key_element, ElementTree.get, ElementTree.set.
  cbn [ElementTree.attrib ElementTree.tag ElementTree.children
       ElementTree.new].
  rewrite lookup_insert_ne by discriminate.
  rewrite !lookup_insert_eq. split; [|split].
  - apply all_ascii_str_int.
  - apply py_int_str_int.
  - now destruct (snd key).
Qed.

Lemma state_element_decodes (keys : list KeyIdentifier) :
  state_decodes parse_bool (state_element keys) keys.
Proof.
  unfold state_decodes. rewrite findall_key_elements.
  induction keys as [|key keys IH]; constructor;
    [apply key_element_decodes | exact IH].
Qed.

Lemma generate_xml_decodes (self : t) :
  document_decodes parse_bool (generate_xml self) (chain_states self).
Proof.
  unfold document_decodes.
  rewrite generate_xml_elements, findall_state_elements.
  induction (chain_states self) as [|keys combos IH]; constructor;
    [apply state_element_decodes | exact IH].
Qed.

(** C5: let the host's boolean parser read ["True"] as true and
    ["False"] as false.  For every action [L] whose [num_states] is the
    length of its [chain_states], whatever that length (0, up to
    [MAX_STATES], or more) and whatever the combinations (empty ones and
    repeated scan codes included), [_parse_xml] on a fresh action, given
    the node [_generate_xml] builds for [L], returns normally and leaves
    the fresh action equal to [L]. *)
Theorem parse_generate_round_trip (L : t) :
  consistent L ->
  parse_xml parse_bool (generate_xml L) init = (Returned tt, L).
Proof.
  intros HL.
  rewrite (parse_xml_decodes _ (chain_states L))
    by apply generate_xml_decodes.
  unfold init. cbn [chain_states num_states app]. rewrite Z.add_0_l.
  unfold consistent in HL. rewrite <- HL. now destruct L.
Qed.

End RoundTrip.

(** C9: [_parse_xml] compares nothing with [MAX_STATES].  Whenever the
    [state] elements of the document read, in document order, as the
    combinations [combos] (each [key] child has a [scan-code] of ASCII
    text that [int] accepts and an [extended] that the host's parser
    accepts), the call returns normally, [combos] are appended to
    [chain_states] in that order and [num_states] grows by their number,
    however many they are: more than [MAX_STATES] states are parsed like
    any other number. *)
Theorem parse_xml_no_bound (node : ElementTree.Element)
        (combos : list (list KeyIdentifier)) (a : t) :
  document_decodes parse_bool node combos ->
  parse_xml parse_bool node a =
  (Returned tt,
   {| chain_states := chain_states a ++ combos;
      num_states := num_states a + Z.of_nat (length combos) |}).
Proof. apply parse_xml_decodes. Qed.


End CodecFacts.

(** C5 on an action with a repeated key, an empty combination and an
    extended key. *)
Lemma parse_generate_round_trip_witness :
  let L := StateToggle.mk [[(30, false); (30, false)]; []; [(42, true)]] 3 in
  StateToggle.parse_xml example_parse_bool (StateToggle.generate_xml L)
                        StateToggle.init = (Returned tt, L).
Proof.
  apply (parse_generate_round_trip example_parse_bool);
    reflexivity.
Defined.

(** C9 on the document with eleven states. *)
Lemma parse_xml_no_bound_witness :
  StateToggle.MAX_STATES < 11 /\
  StateToggle.parse_xml example_parse_bool eleven_states_document
                        StateToggle.init =
  (Returned tt,
   StateToggle.mk
     (replicate 3 [] ++ [[(30, true); (30, true)]] ++ replicate 7 []) 11).
Proof.
  split; [reflexivity|].
  apply (parse_xml_no_bound example_parse_bool eleven_states_document
           (replicate 3 [] ++ [[(30, true); (30, true)]] ++ replicate 7 [])
           StateToggle.init).
  unfold StateToggle.document_decodes, StateToggle.state_decodes,
    StateToggle.key_decodes.
  repeat (constructor; try (split; [|split]; reflexivity)).
Defined.

(** * Further properties of the code *)

(** ** The runtime engine *)

Section EngineMore.

Import StateToggleFunctor.

Context {Key Event : Type}.
Variable key_from_code : Z -> bool -> Key.

Implicit Types (self : t Key) (event : Event) (value : Value)
         (q : list (Macro Key)) (cbs : list (Callback * Event)).

Lemma init_always_auto_release (action : StateToggle.t) self :
  init key_from_code action = Returned self -> always_auto_release self.
Proof.
  intros Hinit.
  destruct (Z_lt_le_dec
              (Z.of_nat (length (StateToggle.chain_states action)))
              (StateToggle.num_states action)) as [Hlt|Hle].
  - rewrite init_raises in Hinit by exact Hlt. discriminate.
  - rewrite init_returns in Hinit by exact Hle.
    injection Hinit as <-. intros i b Hb. cbn in Hb.
    rewrite list_lookup_fmap in Hb.
    destruct (take _ _ !! i); cbn in Hb; congruence.
Qed.

(** What a run of events adds to the queue and to the registered
    callbacks, on a well-formed functor whose states all ask for the
    automatic release. *)
Lemma run_effects (evs : list (Event * Value)) self q cbs :
  well_formed self -> always_auto_release self ->
  exists w' added,
    process_events evs
      {| self_ := self; macro_queue := q; release_callbacks := cbs |} =
    (Returned tt, w') /\
    macro_queue w' = q ++ added /\
    length added = length evs /\
    release_callbacks w' =
      cbs ++ map (fun ev => (QueueCurrentRelease, fst ev))
                 (List.filter (fun ev => current (snd ev)) evs).
Proof.
  revert self q cbs.
  induction evs as [|[event value] evs IH]; intros self q cbs Hwf Hauto.
  - exists {| self_ := self; macro_queue := q; release_callbacks := cbs |}, [].
    cbn. now rewrite !app_nil_r.
  - cbn [process_events]. unfold bind at 1.
    destruct (current value) eqn:Hv.
    + destruct (process_event_activate self event value q cbs Hwf Hv)
        as (m & needs & _ & Hneeds & ->).
      rewrite (Hauto _ _ Hneeds).
      destruct (IH self (q ++ [m]) (cbs ++ [(QueueCurrentRelease, event)])
                   Hwf Hauto) as (w' & added & -> & Hq & Hlen & Hcbs).
      exists w', (m :: added). split; [reflexivity|].
      split; [now rewrite Hq, <- app_assoc|].
      split; [cbn; lia|].
      rewrite Hcbs. cbn [List.filter snd fst map]. rewrite Hv.
      now rewrite <- app_assoc.
    + destruct (process_event_deactivate self event value q cbs Hwf Hv)
        as (m & _ & ->).
      assert (Hc : 0 <= (current_toggle self + 1) mod num_states self
                   < num_states self).
      { destruct Hwf as (_ & _ & _ & Hc). apply Z.mod_pos_bound. lia. }
      destruct (IH _ (q ++ [m]) cbs
                   (well_formed_set_current_toggle _ _ Hwf Hc) Hauto)
        as (w' & added & -> & Hq & Hlen & Hcbs).
      exists w', (m :: added). split; [reflexivity|].
      split; [now rewrite Hq, <- app_assoc|].
      split; [cbn; lia|].
      rewrite Hcbs. cbn [List.filter snd fst map]. now rewrite Hv.
Qed.

(** X1: when the action holds at least [num_states] combinations, the
    constructor returns a functor with one press macro, one release macro
    and one flag per state counted by [num_states]: the press macro
    presses the keys of the combination in their order, the release macro
    releases them in the same order, every flag is [True], the cursor is
    0.  Combinations beyond [num_states] are not read. *)
Theorem init_builds_macros (action : StateToggle.t) :
  StateToggle.num_states action
    <= Z.of_nat (length (StateToggle.chain_states action)) ->
  init key_from_code action =
  Returned
    (let used := take (Z.to_nat (StateToggle.num_states action))
                      (StateToggle.chain_states action) in
     {| press := map (press_macro key_from_code) used;
        needs_auto_release := map (fun _ => true) used;
        release := map (release_macro key_from_code) used;
        num_states := StateToggle.num_states action;
        current_toggle := 0 |}).
Proof. apply init_returns. Qed.

(** X2: when [num_states] is larger than the number of combinations the
    action holds, the constructor raises [IndexError], at the first state
    that has no combination. *)
Theorem init_missing_combination (action : StateToggle.t) :
  Z.of_nat (length (StateToggle.chain_states action))
    < StateToggle.num_states action ->
  init key_from_code action = Raised IndexError.
Proof. apply init_raises. Qed.

(** X3: after any run of events on a functor whose three lists have
    [num_states] entries and whose cursor is in range, no call has
    raised, the lists and [num_states] are as before, and the cursor has
    moved by the number of deactivations in the run, modulo
    [num_states]; activations do not count. *)
Theorem cursor_counts_deactivations (evs : list (Event * Value)) self q cbs :
  well_formed self ->
  exists q' cbs',
    process_events evs
      {| self_ := self; macro_queue := q; release_callbacks := cbs |} =
    (Returned tt,
     {| self_ := set_current_toggle
                   ((current_toggle self + Z.of_nat (deactivations evs))
                      mod num_states self) self;
        macro_queue := q';
        release_callbacks := cbs' |}).
Proof. apply process_events_cursor. Qed.

(** X4: on a functor the constructor has returned, with at least one
    state, every event of a run appends exactly one macro to the queue,
    behind what was queued before, and every activation registers the
    auto-release callback with its own event, in order of arrival;
    deactivations register nothing. *)
Theorem run_queues_one_macro_per_event
        (action : StateToggle.t) (evs : list (Event * Value)) self q cbs :
  init key_from_code action = Returned self ->
  1 <= num_states self ->
  exists w' added,
    process_events evs
      {| self_ := self; macro_queue := q; release_callbacks := cbs |} =
    (Returned tt, w') /\
    macro_queue w' = q ++ added /\
    length added = length evs /\
    release_callbacks w' =
      cbs ++ map (fun ev => (QueueCurrentRelease, fst ev))
                 (List.filter (fun ev => current (snd ev)) evs).
Proof.
  intros Hinit Hn.
  destruct (init_well_formed key_from_code action self Hinit Hn) as (Hwf & _).
  apply run_effects; [exact Hwf|].
  exact (init_always_auto_release action self Hinit).
Qed.

(** X5: the callback registered at an activation reads the cursor when it
    is called.  Called after the deactivation that follows has been
    processed, it queues the release macro of the next state: the queue
    receives [press[c]], [release[c]] and then [release[(c + 1) mod
    num_states]], where [c] was the cursor at the activation. *)
Theorem release_callback_reads_cursor_late
        self event event' (pressed released : Value) q cbs :
  well_formed self ->
  current pressed = true -> current released = false ->
  exists (p r r' : Macro Key) cbs',
    press self !! Z.to_nat (current_toggle self) = Some p /\
    release self !! Z.to_nat (current_toggle self) = Some r /\
    release self !! Z.to_nat ((current_toggle self + 1) mod num_states self)
      = Some r' /\
    (process_event event pressed ;;;
     process_event event' released ;;;
     run_callback QueueCurrentRelease)
      {| self_ := self; macro_queue := q; release_callbacks := cbs |} =
    (Returned tt,
     {| self_ := set_current_toggle
                   ((current_toggle self + 1) mod num_states self) self;
        macro_queue := q ++ [p; r; r'];
        release_callbacks := cbs' |}).
Proof.
  intros Hwf Hp Hr.
  destruct (process_event_activate self event pressed q cbs Hwf Hp)
    as (p & needs & Hpress & _ & Hact).
  set (cbs' := if needs then cbs ++ [(QueueCurrentRelease, event)] else cbs)
    in Hact.
  destruct (process_event_deactivate self event' released (q ++ [p]) cbs'
                                     Hwf Hr) as (r & Hrel & Hdeact).
  assert (Hc : 0 <= (current_toggle self + 1) mod num_states self
               < num_states self).
  { destruct Hwf as (_ & _ & _ & Hc). apply Z.mod_pos_bound. lia. }
  destruct (py_getitem_in_range (release self)
              ((current_toggle self + 1) mod num_states self))
    as (r' & Hr' & Hget).
  { destruct Hwf as (_ & _ & Hlen & _). lia. }
  exists p, r, r', cbs'. repeat (split; [assumption|]).
  unfold bind at 1. rewrite Hact. unfold bind at 1. rewrite Hdeact.
  unfold run_callback, bind, gets, lift, queue_macro, modify, py_append.
  cbn [self_ macro_queue release_callbacks set_current_toggle release
       current_toggle].
  rewrite Hget. now rewrite <- !app_assoc.
Qed.

End EngineMore.

(** X1 on the two-state action. *)
Lemma init_builds_macros_witness :
  StateToggleFunctor.init example_key_from_code two_states =
  Returned two_states_functor.
Proof.
  apply (init_builds_macros example_key_from_code two_states).
  cbn. lia.
Defined.

(** X2 on an action that counts two states and holds one combination. *)
Lemma init_missing_combination_witness :
  StateToggleFunctor.init example_key_from_code
    (StateToggle.mk [[(30, false)]] 2) = Raised IndexError.
Proof.
  apply (init_missing_combination example_key_from_code
           (StateToggle.mk [[(30, false)]] 2)).
  cbn. lia.
Defined.

(** X3 on the two-state engine: three deactivations among five events
    leave the cursor at 1. *)
Lemma cursor_counts_deactivations_witness :
  exists q' cbs',
    StateToggleFunctor.process_events
      [(tt, deactivate); (tt, activate); (tt, deactivate); (tt, activate);
       (tt, deactivate)]
      (StateToggleFunctor.fresh_world two_states_functor) =
    (Returned tt,
     StateToggleFunctor.mkWorld
       (StateToggleFunctor.set_current_toggle 1 two_states_functor) q' cbs').
Proof.
  apply (cursor_counts_deactivations
           [(tt, deactivate); (tt, activate); (tt, deactivate);
            (tt, activate); (tt, deactivate)] two_states_functor [] []).
  unfold StateToggleFunctor.well_formed. cbn. lia.
Defined.

(** X4 on the two-state engine and three events. *)
Lemma run_queues_one_macro_per_event_witness :
  exists w' added,
    StateToggleFunctor.process_events
      [(tt, activate); (tt, deactivate); (tt, activate)]
      (StateToggleFunctor.fresh_world two_states_functor) =
    (Returned tt, w') /\
    StateToggleFunctor.macro_queue w' = [] ++ added /\
    length added = 3%nat /\
    StateToggleFunctor.release_callbacks w' =
      [] ++ [(StateToggleFunctor.QueueCurrentRelease, tt);
             (StateToggleFunctor.QueueCurrentRelease, tt)].
Proof.
  apply (run_queues_one_macro_per_event example_key_from_code two_states
           [(tt, activate); (tt, deactivate); (tt, activate)]
           two_states_functor [] []).
  - reflexivity.
  - cbn. lia.
Defined.

(** X5 on the two-state engine: the callback of the press of scan code 30,
    called after the deactivation, queues the release of 42 and 44. *)
Lemma release_callback_reads_cursor_late_witness :
  exists cbs',
    (StateToggleFunctor.process_event tt activate ;;;
     StateToggleFunctor.process_event tt deactivate ;;;
     StateToggleFunctor.run_callback StateToggleFunctor.QueueCurrentRelease)
      (StateToggleFunctor.fresh_world two_states_functor) =
    (Returned tt,
     StateToggleFunctor.mkWorld
       (StateToggleFunctor.set_current_toggle 1 two_states_functor)
       [[((30, false), true)];
        [((30, false), false)];
        [((42, false), false); ((44, false), false)]]
       cbs').
Proof.
  assert (Hwf : StateToggleFunctor.well_formed two_states_functor).
  { unfold StateToggleFunctor.well_formed. cbn. lia. }
  destruct (release_callback_reads_cursor_late two_states_functor tt tt
              activate deactivate [] [] Hwf eq_refl eq_refl)
    as (p & r & r' & cbs' & Hp & Hr & Hr' & Heq).
  cbn in Hp, Hr, Hr'.
  injection Hp as <-. injection Hr as <-. injection Hr' as <-.
  exists cbs'. exact Heq.
Defined.

(** ** The widget *)

Lemma py_setitem_in_range {A} (l : list A) (i : Z) (x : A) :
  0 <= i < Z.of_nat (length l) ->
  py_setitem l i x = Returned (<[Z.to_nat i := x]> l).
Proof.
  intros Hi. unfold py_setitem.
  destruct (i <? 0) eqn:Hneg; [lia|].
  destruct (0 <=? i) eqn:H0; [|lia].
  destruct (i <? Z.of_nat (length l)) eqn:Hn; [|lia].
  reflexivity.
Qed.

Lemma py_setitem_out_of_range {A} (l : list A) (i : Z) (x : A) :
  Z.of_nat (length l) <= i \/ i < - Z.of_nat (length l) ->
  py_setitem l i x = Raised IndexError.
Proof.
  intros Hi. unfold py_setitem.
  destruct (i <? 0) eqn:Hneg.
  - destruct (0 <=? i + Z.of_nat (length l)) eqn:H0; [lia|]. reflexivity.
  - destruct (i <? Z.of_nat (length l)) eqn:Hn; [lia|].
    now rewrite andb_false_r.
Qed.

Section WidgetMore.

Import StateToggle StateToggleWidget.

(** After a resize to a target that is not negative the count is again
    the length of the list. *)
Lemma states_changed_cb_consistent (a : StateToggle.t) (value : Z) :
  consistent a -> 0 <= value ->
  consistent
    {| chain_states :=
         if num_states a <? value then
           chain_states a ++ replicate (Z.to_nat (value - num_states a)) []
         else take (Z.to_nat value) (chain_states a);
       num_states := value |}.
Proof.
  unfold consistent. intros Hn Hv. cbn [chain_states num_states].
  destruct (num_states a <? value) eqn:Hlt.
  - apply Z.ltb_lt in Hlt. rewrite length_app, length_replicate. lia.
  - apply Z.ltb_ge in Hlt. rewrite length_take. lia.
Qed.

(** X7: a resize to a target that is not negative, on an action whose
    count is the length of its list, returns normally and leaves an
    action whose count is the target and again the length of its list;
    [_is_valid] then holds exactly when the target is above 0. *)
Theorem resize_keeps_consistent (a : StateToggle.t) (value : Z) :
  consistent a -> 0 <= value ->
  exists a',
    states_changed_cb value a = (Returned tt, a') /\
    consistent a' /\
    num_states a' = value /\
    is_valid a' = (0 <? value).
Proof.
  intros Hn Hv. eexists. split.
  { apply states_changed_cb_nonneg; assumption. }
  split; [now apply states_changed_cb_consistent|].
  split; [reflexivity|].
  pose proof (states_changed_cb_consistent a value Hn Hv) as Hc.
  unfold consistent in Hc. cbn [num_states] in Hc.
  unfold is_valid. now rewrite <- Hc.
Qed.

(** X8: growing the list and then resizing it back to the old count gives
    the action back as it was: what a shrink removes is what the growth
    had appended. *)
Theorem grow_then_shrink_restores (a : StateToggle.t) (value : Z) :
  consistent a -> num_states a <= value ->
  (states_changed_cb value ;;; states_changed_cb (num_states a)) a =
  (Returned tt, a).
Proof.
  intros Hn Hv.
  assert (H0 : 0 <= num_states a) by (unfold consistent in Hn; lia).
  unfold bind.
  rewrite states_changed_cb_nonneg by (try exact Hn; lia).
  rewrite states_changed_cb_nonneg
    by (try (apply states_changed_cb_consistent; [exact Hn|]); cbn; lia).
  cbn [chain_states num_states].
  replace (value <? num_states a) with false by (symmetry; lia).
  unfold consistent in Hn.
  destruct (num_states a <? value) eqn:Hlt.
  - rewrite take_app_length' by lia. now destruct a.
  - rewrite take_take, take_ge by lia. now destruct a.
Qed.

(** X9: shrinking the list and then resizing it back to the old count
    does not bring the removed combinations back: the first [value]
    combinations are kept and the others are empty. *)
Theorem shrink_then_grow_empties (a : StateToggle.t) (value : Z) :
  consistent a -> 0 <= value <= num_states a ->
  (states_changed_cb value ;;; states_changed_cb (num_states a)) a =
  (Returned tt,
   {| chain_states :=
        take (Z.to_nat value) (chain_states a) ++
        replicate (Z.to_nat (num_states a - value)) [];
      num_states := num_states a |}).
Proof.
  intros Hn Hv. unfold bind.
  rewrite states_changed_cb_nonneg by (try exact Hn; lia).
  rewrite states_changed_cb_nonneg
    by (try (apply states_changed_cb_consistent; [exact Hn|]); cbn; lia).
  cbn [chain_states num_states].
  replace (num_states a <? value) with false by (symmetry; lia).
  unfold consistent in Hn.
  destruct (value <? num_states a) eqn:Hlt.
  - reflexivity.
  - apply Z.ltb_ge in Hlt. assert (value = num_states a) as -> by lia.
    rewrite Z.sub_diag, take_take, Nat.min_id. cbn [Z.to_nat replicate].
    now rewrite app_nil_r.
Qed.

(** X10: [_update_keys] with [self.id] an index of the list puts the
    recorded keys, each as its scan code and extended flag and in the
    order recorded, at that index; the other combinations, the length of
    the list and [num_states] are as before. *)
Theorem update_keys_in_range (a : StateToggle.t) (id : Z)
        (keys : list RecordedKey) :
  0 <= id < Z.of_nat (length (chain_states a)) ->
  exists a',
    update_keys id keys a = (Returned tt, a') /\
    chain_states a' !! Z.to_nat id =
      Some (map (fun key => (scan_code key, is_extended key)) keys) /\
    (forall j : nat, j <> Z.to_nat id ->
                     chain_states a' !! j = chain_states a !! j) /\
    length (chain_states a') = length (chain_states a) /\
    num_states a' = num_states a.
Proof.
  intros Hid. unfold update_keys, bind, gets, lift, modify.
  rewrite py_setitem_in_range by exact Hid.
  eexists. split; [reflexivity|]. cbn [chain_states num_states set_chain_states].
  split.
  { apply list_lookup_insert_eq, Nat2Z.inj_lt.
    rewrite Z2Nat.id by apply Hid. apply Hid. }
  split; [intros j Hj; now apply list_lookup_insert_ne|].
  split; [apply length_insert | reflexivity].
Qed.

(** X11: [_update_keys] with [self.id] beyond the list (at or above its
    length, or below minus its length) raises [IndexError] and leaves the
    action as it was. *)
Theorem update_keys_out_of_range (a : StateToggle.t) (id : Z)
        (keys : list RecordedKey) :
  Z.of_nat (length (chain_states a)) <= id \/
  id < - Z.of_nat (length (chain_states a)) ->
  update_keys id keys a = (Raised IndexError, a).
Proof.
  intros Hid. unfold update_keys, bind, gets, lift.
  now rewrite py_setitem_out_of_range by exact Hid.
Qed.

Variable key_name : Z -> bool -> string.

Lemma create_ui_loop (xs : list Z) (labels : list string) :
  for_each xs (fun _ =>
    let key_combination := "" in
    modify (fun labels => py_append labels key_combination)) labels =
  (Returned tt, labels ++ replicate (length xs) "").
Proof.
  revert labels. induction xs as [|x xs IH]; intros labels.
  - cbn. unfold ret. now rewrite app_nil_r.
  - cbn [for_each]. unfold bind at 1, modify at 1. rewrite IH.
    unfold py_append. cbn. now rewrite <- app_assoc.
Qed.

(** The loop of [_populate_ui] from index [length done] on: it sets one
    label per combination and raises when the labels run out. *)
Lemma populate_ui_loop (combos : list (list KeyIdentifier))
      (done rest : list string) :
  for_each combos (fun eachkey =>
    st <~ gets (fun st : Z * list string => st) ;;
    labels' <~ lift (py_setitem (snd st) (fst st)
                                (label_text key_name eachkey)) ;;
    modify (fun _ => (fst st + 1, labels')))
    (Z.of_nat (length done), done ++ rest) =
  if (length combos <=? length rest)%nat then
    (Returned tt,
     (Z.of_nat (length done + length combos),
      done ++ map (label_text key_name) combos ++ drop (length combos) rest))
  else
    (Raised IndexError,
     (Z.of_nat (length done + length rest),
      done ++ map (label_text key_name) (take (length rest) combos))).
Proof.
  revert done rest.
  induction combos as [|eachkey combos IH]; intros done rest.
  - cbn. unfold ret. now rewrite Nat.add_0_r.
  - cbn [for_each]. unfold bind at 1, bind at 1, gets at 1. cbn [fst snd].
    destruct rest as [|r rest].
    + unfold bind, lift. rewrite py_setitem_out_of_range
        by (left; rewrite length_app; cbn; lia).
      cbn. now rewrite Nat.add_0_r.
    + unfold bind at 1, lift at 1. rewrite py_setitem_in_range
        by (rewrite length_app; cbn; lia).
      unfold modify at 1. rewrite Nat2Z.id.
      replace (length done) with (length done + 0)%nat at 2 by lia.
      rewrite insert_app_r. cbn [insert list_insert].
      replace (Z.of_nat (length done) + 1)
        with (Z.of_nat (length (done ++ [label_text key_name eachkey])))
        by (rewrite length_app; cbn; lia).
      replace (done ++ label_text key_name eachkey :: rest)
        with ((done ++ [label_text key_name eachkey]) ++ rest)
        by now rewrite <- app_assoc.
      rewrite IH. cbn [length]. rewrite length_app. cbn [length].
      destruct (length combos <=? length rest)%nat eqn:Hle.
      * replace (S (length combos) <=? S (length rest))%nat with true
          by (symmetry; apply Nat.leb_le; apply Nat.leb_le in Hle; lia).
        cbn [map drop app]. rewrite <- app_assoc. cbn [app].
        do 3 f_equal. lia.
      * replace (S (length combos) <=? S (length rest))%nat with false
          by (symmetry; apply Nat.leb_gt; apply Nat.leb_gt in Hle; lia).
        cbn [map take app]. rewrite <- app_assoc. cbn [app].
        do 3 f_equal. lia.
Qed.

Local Ltac populate_from_start :=
  match goal with
  | |- context [for_each ?cs ?body (0, ?labels)] =>
      change (for_each cs body (0, labels))
        with (for_each cs body (Z.of_nat (length (@nil string)),
                                [] ++ labels))
  end.

(** X12: on an action whose count is the length of its list, [_create_ui]
    followed by [_populate_ui], starting without a label, returns
    normally with one label per combination, in order, each showing the
    display names of the keys of its combination joined by [" + "]. *)
Theorem create_then_populate (a : StateToggle.t) :
  consistent a ->
  (create_ui a ;;; populate_ui key_name a) [] =
  (Returned tt, map (label_text key_name) (chain_states a)).
Proof.
  intros Hn. unfold consistent in Hn.
  unfold bind, create_ui. rewrite create_ui_loop, py_range_length.
  rewrite Z.sub_0_r, Hn, Nat2Z.id. cbn [app]. unfold populate_ui.
  populate_from_start. rewrite populate_ui_loop, length_replicate.
  rewrite Nat.leb_refl. rewrite drop_replicate, Nat.sub_diag.
  cbn [replicate app]. now rewrite app_nil_r.
Qed.

(** X13: with fewer labels than combinations [_populate_ui] raises
    [IndexError]: it has set every label there is, to the text of the
    combination at the same index, and fails at the first combination
    that has no label. *)
Theorem populate_ui_too_few_labels (a : StateToggle.t)
        (labels : list string) :
  (length labels < length (chain_states a))%nat ->
  populate_ui key_name a labels =
  (Raised IndexError,
   map (label_text key_name) (take (length labels) (chain_states a))).
Proof.
  intros Hlt. unfold populate_ui.
  populate_from_start. rewrite populate_ui_loop.
  replace (length (chain_states a) <=? length labels)%nat with false
    by (symmetry; apply Nat.leb_gt; lia).
  reflexivity.
Qed.

End WidgetMore.

(** X7 on the two-state action, resized to no state. *)
Lemma resize_keeps_consistent_witness :
  exists a',
    StateToggleWidget.states_changed_cb 0 two_states = (Returned tt, a') /\
    StateToggle.consistent a' /\
    StateToggle.num_states a' = 0 /\
    StateToggle.is_valid a' = false.
Proof.
  apply (resize_keeps_consistent two_states 0); [reflexivity | lia].
Defined.

(** X8 on the two-state action: to five states and back to two. *)
Lemma grow_then_shrink_restores_witness :
  (StateToggleWidget.states_changed_cb 5 ;;;
   StateToggleWidget.states_changed_cb 2) two_states =
  (Returned tt, two_states).
Proof.
  apply (grow_then_shrink_restores two_states 5); [reflexivity | cbn; lia].
Defined.

(** X9 on the two-state action: to one state and back to two. *)
Lemma shrink_then_grow_empties_witness :
  (StateToggleWidget.states_changed_cb 1 ;;;
   StateToggleWidget.states_changed_cb 2) two_states =
  (Returned tt, StateToggle.mk [[(30, false)]; []] 2).
Proof.
  apply (shrink_then_grow_empties two_states 1); [reflexivity | cbn; lia].
Defined.

(** X10 on the two-state action: one extended key recorded for state 1. *)
Lemma update_keys_in_range_witness :
  exists a',
    StateToggleWidget.update_keys
      1 [StateToggleWidget.mkRecordedKey 57 true] two_states =
    (Returned tt, a') /\
    StateToggle.chain_states a' !! 1%nat = Some [(57, true)] /\
    (forall j : nat,
       j <> 1%nat ->
       StateToggle.chain_states a' !! j =
       StateToggle.chain_states two_states !! j) /\
    length (StateToggle.chain_states a') = 2%nat /\
    StateToggle.num_states a' = 2.
Proof.
  apply (update_keys_in_range two_states 1
           [StateToggleWidget.mkRecordedKey 57 true]).
  cbn. lia.
Defined.

(** X11 on the two-state action, index 2. *)
Lemma update_keys_out_of_range_witness :
  StateToggleWidget.update_keys
    2 [StateToggleWidget.mkRecordedKey 57 true] two_states =
  (Raised IndexError, two_states).
Proof.
  apply (update_keys_out_of_range two_states 2
           [StateToggleWidget.mkRecordedKey 57 true]).
  left. cbn. lia.
Defined.

(** X12 on the two-state action. *)
Lemma create_then_populate_witness :
  (StateToggleWidget.create_ui two_states ;;;
   StateToggleWidget.populate_ui example_key_name two_states) [] =
  (Returned tt,
   ["<b>Current keys combination:</b> 30";
    "<b>Current keys combination:</b> 42 + 44"]).
Proof.
  apply (create_then_populate example_key_name two_states). reflexivity.
Defined.

(** X13 on the two-state action and a single label. *)
Lemma populate_ui_too_few_labels_witness :
  StateToggleWidget.populate_ui example_key_name two_states ["State 0"] =
  (Raised IndexError, ["<b>Current keys combination:</b> 30"]).
Proof.
  apply (populate_ui_too_few_labels example_key_name two_states ["State 0"]).
  cbn. lia.
Defined.

(** ** The XML codec *)

Section CodecMore.

Import StateToggle.

Variable parse_bool : option string -> outcome bool.

(** X14: the node [_generate_xml] returns has the tag [StateToggle] and no
    attribute; its children are one [state] element per combination of
    [chain_states], in order, each without attribute and with one [key]
    child per key, in order, carrying [str] of the scan code and [str] of
    the extended flag.  [num_states] is not read. *)
Theorem generate_xml_shape (self : t) :
  generate_xml self =
  ElementTree.mkElement tag ∅ (map state_element (chain_states self)).
Proof. apply generate_xml_elements. Qed.

(** X15: a [key] element whose [scan-code] is missing, or is ASCII text
    that [int] refuses (a missing attribute gives [TypeError], a text that
    is no integer [ValueError]), stops [_parse_xml] with that exception.
    The states before the one that holds the key have been appended and
    counted; the state that holds it, and the states after it, have
    not. *)
Theorem parse_xml_stops_at_bad_key
        (node state child : ElementTree.Element)
        (good rest before after : list ElementTree.Element)
        (combos : list (list KeyIdentifier)) (keys : list KeyIdentifier)
        (e : exn) (a : t) :
  ElementTree.findall node subtag = good ++ state :: rest ->
  Forall2 (state_decodes parse_bool) good combos ->
  ElementTree.findall state "key" = before ++ child :: after ->
  Forall2 (key_decodes parse_bool) before keys ->
  ascii_only (ElementTree.get child "scan-code") = true ->
  py_int (ElementTree.get child "scan-code") = Raised e ->
  parse_xml parse_bool node a =
  (Raised e,
   {| chain_states := chain_states a ++ combos;
      num_states := num_states a + Z.of_nat (length combos) |}).
Proof.
  intros Hstates Hgood Hkeys Hbefore _ Hbad.
  unfold parse_xml. rewrite Hstates, for_each_app.
  rewrite (parse_states_loop parse_bool good combos a Hgood).
  cbn [for_each]. unfold bind at 1.
  unfold parse_state at 1, bind at 1, with_local at 1.
  rewrite Hkeys, for_each_app.
  rewrite (parse_keys_loop parse_bool before keys [] Hbefore).
  cbn [for_each app]. unfold bind at 1, parse_key at 1, bind at 1, lift at 1.
  rewrite Hbad. reflexivity.
Qed.

(** X16: a fresh action has no state and is not valid.  [_parse_xml] never
    makes a valid action invalid, whether it returns or raises, and when it
    returns normally from a document with at least one [state] element the
    action is valid. *)
Theorem parse_xml_validity (node : ElementTree.Element) (a : t) :
  is_valid init = false /\
  (is_valid a = true ->
   is_valid (snd (parse_xml parse_bool node a)) = true) /\
  (fst (parse_xml parse_bool node a) = Returned tt ->
   ElementTree.findall node subtag <> [] ->
   is_valid (snd (parse_xml parse_bool node a)) = true).
Proof.
  split; [reflexivity|].
  destruct (parse_states_accumulate parse_bool
              (ElementTree.findall node subtag) a)
    as (new & Hsnd & _ & Hfst).
  unfold parse_xml, is_valid in *. rewrite Hsnd.
  cbn [chain_states]. rewrite length_app. split.
  - intros Ha. apply Z.ltb_lt in Ha. apply Z.ltb_lt. lia.
  - intros Hret Hne. specialize (Hfst Hret).
    destruct (ElementTree.findall node subtag); [contradiction|].
    cbn [length] in Hfst. apply Z.ltb_lt. lia.
Qed.

Hypothesis parse_bool_True : parse_bool (Some "True") = Returned true.
Hypothesis parse_bool_False : parse_bool (Some "False") = Returned false.

(** X17: let the host's boolean parser read ["True"] as true and
    ["False"] as false.  [_parse_xml] given the node written for an action
    [L] appends the combinations of [L] to whatever the receiving action
    holds; an action that reads its own document ends with every
    combination twice. *)
Theorem parse_written_document_appends (L a : t) :
  parse_xml parse_bool (generate_xml L) a =
  (Returned tt,
   {| chain_states := chain_states a ++ chain_states L;
      num_states := num_states a + Z.of_nat (length (chain_states L)) |}).
Proof.
  apply parse_xml_decodes.
  now apply generate_xml_decodes.
Qed.

(** X18: under the same assumption, writing an action, reading the node
    into a fresh action and writing that one gives the same node again,
    whatever [num_states] the first action carried. *)
Theorem generate_parse_generate (L : t) :
  generate_xml (snd (parse_xml parse_bool (generate_xml L) init)) =
  generate_xml L.
Proof.
  rewrite (parse_xml_decodes parse_bool _ (chain_states L))
    by now apply generate_xml_decodes.
  cbn [snd]. now rewrite !generate_xml_elements.
Qed.

End CodecMore.

(** X15 on the document whose second state has a key without scan code:
    the first state is kept, the call raises [TypeError]. *)
Lemma parse_xml_stops_at_bad_key_witness :
  StateToggle.parse_xml example_parse_bool broken_document StateToggle.init =
  (Raised TypeError, StateToggle.mk [[(30, true)]] 1).
Proof.
  apply (parse_xml_stops_at_bad_key example_parse_bool broken_document
           (ElementTree.mkElement "state" ∅
              [ElementTree.mkElement "key"
                 (<["scan-code" := "42"]> (<["extended" := "False"]> ∅)) [];
               ElementTree.mkElement "key" (<["extended" := "False"]> ∅) []])
           (ElementTree.mkElement "key" (<["extended" := "False"]> ∅) [])
           [ElementTree.mkElement "state" ∅
              [ElementTree.mkElement "key"
                 (<["scan-code" := "30"]> (<["extended" := "True"]> ∅)) []]]
           [ElementTree.mkElement "state" ∅ []]
           [ElementTree.mkElement "key"
              (<["scan-code" := "42"]> (<["extended" := "False"]> ∅)) []]
           []
           [[(30, true)]] [(42, false)] TypeError StateToggle.init).
  - reflexivity.
  - unfold StateToggle.state_decodes, StateToggle.key_decodes.
    repeat (constructor; try (split; [|split]; reflexivity)).
  - reflexivity.
  - unfold StateToggle.key_decodes.
    repeat (constructor; try (split; [|split]; reflexivity)).
  - reflexivity.
  - reflexivity.
Defined.

(** X17 on the two-state action reading its own document. *)
Lemma parse_written_document_appends_witness :
  StateToggle.parse_xml example_parse_bool
    (StateToggle.generate_xml two_states) two_states =
  (Returned tt,
   StateToggle.mk
     [[(30, false)]; [(42, false); (44, false)];
      [(30, false)]; [(42, false); (44, false)]] 4).
Proof.
  apply (parse_written_document_appends example_parse_bool);
    reflexivity.
Defined.

(** X18 on an action whose count is not the length of its list. *)
Lemma generate_parse_generate_witness :
  let L := StateToggle.mk [[(30, false)]; []] 7 in
  StateToggle.generate_xml
    (snd (StateToggle.parse_xml example_parse_bool
            (StateToggle.generate_xml L) StateToggle.init)) =
  StateToggle.generate_xml L.
Proof.
  apply (generate_parse_generate example_parse_bool); reflexivity.
Defined.
